(** * mdns-mirror: the reconciliation engine of [mdns_mirror/app.py]

    A shallow embedding of the functions of [app.py] that keep the two
    dictionaries [services] and [servers] and talk to the DNS server:
    [retry], [remove_all_a_records], [server_updated], [server_removed],
    [service_updated], [service_removed], [on_service_instance_state_change]
    and the polling loop of [mirror_mdns].

    Python statements are commands of a state-and-exception monad over a
    [World]: the closure variables of [mirror_mdns], the identities handed
    out to Python objects, and the two external collaborators (the DNS server
    and the zeroconf cache).  Calls to [logging] are not modelled. *)

From Stdlib Require Import ZArith DecimalString Ascii.
From stdpp Require Import gmap strings list fin_maps.

(** ** Values *)

(** [ipaddress.IPv4Address] and [ipaddress.IPv6Address], by their integer value. *)
Definition IPv4Address := N.
Definition IPv6Address := N.

(** [dns.rdatatype.RdataType] is an [IntEnum]; its members are compared with [==]. *)
Definition RdataType := N.

Module RdataType.
Definition A : RdataType := 1%N.
Definition NS : RdataType := 2%N.
Definition CNAME : RdataType := 5%N.
Definition SOA : RdataType := 6%N.
Definition TXT : RdataType := 16%N.
Definition AAAA : RdataType := 28%N.
End RdataType.

(** The fields of [zeroconf.ServiceInfo] that [service_updated] reads. *)
Record ServiceInfo := mkServiceInfo {
  server : string;
  _ipv4_addresses : list IPv4Address;
  _ipv6_addresses : list IPv6Address;
  host_ttl : Z
}.

(** [class ServerInfo].  The class defines [__init__] only, so it inherits
    [object.__eq__] and [object.__ne__]: two [ServerInfo] values are equal
    exactly when they are the same object.  [obj_id] is that identity (what
    Python's [id] returns); the three attributes follow. *)
Record ServerInfo := mkServerInfo {
  obj_id : nat;
  ipv4_address : option IPv4Address;
  ipv6_address : option IPv6Address;
  ttl : option Z
}.

(** An rrset of a zone transfer answer: owner name, type, TTL and the rdata,
    each datum by its integer value. *)
Record RRset := mkRRset {
  rr_name : string;
  rdtype : RdataType;
  rr_ttl : Z;
  rr_data : list N
}.

(** The body of a [dns.update.UpdateMessage]: [update.replace(name, ttl,
    rdtype, value)] or [update.delete(name)]. *)
Inductive DnsOp :=
| Replace (name : string) (ttl : option Z) (rdtype : RdataType) (value : N)
| Delete (name : string).

#[global] Instance DnsOp_eq_dec : EqDecision DnsOp.
Proof. solve_decision. Defined.

(** The exceptions that can travel through the code; every one of them is a
    subclass of [Exception]. *)
Inductive Exn :=
| KeyError (key : string)
| IndexError
| RuntimeError (msg : string)
| OSError (msg : string)
| OtherException (msg : string).

Inductive Result (A : Type) :=
| Ok (a : A)
| Raise (e : Exn).
Arguments Ok {A} a.
Arguments Raise {A} e.

Inductive ServiceStateChange := Added | Removed | Updated.

(** ** The world *)

(** The closure variables of [mirror_mdns] and the state of its collaborators.
    [sent] lists the update messages handed to [dns.query.tcp], oldest first;
    [tcp_calls] and [zc_calls] count the calls made to [dns.query.tcp] and to
    [zc.get_service_info]. *)
Record World := mkWorld {
  services : gmap string ServiceInfo;
  servers : gmap string ServerInfo;
  next_id : nat;
  exit_event : bool;
  error_event : bool;
  stderr : list string;
  zone : list RRset;
  sent : list DnsOp;
  tcp_calls : nat;
  zc_calls : nat
}.

Definition set_services (f : gmap string ServiceInfo → gmap string ServiceInfo)
    (w : World) : World :=
  mkWorld (f (services w)) (servers w) (next_id w) (exit_event w) (error_event w)
          (stderr w) (zone w) (sent w) (tcp_calls w) (zc_calls w).

Definition set_servers (f : gmap string ServerInfo → gmap string ServerInfo)
    (w : World) : World :=
  mkWorld (services w) (f (servers w)) (next_id w) (exit_event w) (error_event w)
          (stderr w) (zone w) (sent w) (tcp_calls w) (zc_calls w).

Definition set_next_id (n : nat) (w : World) : World :=
  mkWorld (services w) (servers w) n (exit_event w) (error_event w)
          (stderr w) (zone w) (sent w) (tcp_calls w) (zc_calls w).

Definition set_error_event (b : bool) (w : World) : World :=
  mkWorld (services w) (servers w) (next_id w) (exit_event w) b
          (stderr w) (zone w) (sent w) (tcp_calls w) (zc_calls w).

Definition set_exit_event (b : bool) (w : World) : World :=
  mkWorld (services w) (servers w) (next_id w) b (error_event w)
          (stderr w) (zone w) (sent w) (tcp_calls w) (zc_calls w).

Definition add_stderr (line : string) (w : World) : World :=
  mkWorld (services w) (servers w) (next_id w) (exit_event w) (error_event w)
          (stderr w ++ [line]) (zone w) (sent w) (tcp_calls w) (zc_calls w).

Definition set_zone (z : list RRset) (w : World) : World :=
  mkWorld (services w) (servers w) (next_id w) (exit_event w) (error_event w)
          (stderr w) z (sent w) (tcp_calls w) (zc_calls w).

Definition add_sent (op : DnsOp) (w : World) : World :=
  mkWorld (services w) (servers w) (next_id w) (exit_event w) (error_event w)
          (stderr w) (zone w) (sent w ++ [op]) (tcp_calls w) (zc_calls w).

Definition bump_tcp_calls (w : World) : World :=
  mkWorld (services w) (servers w) (next_id w) (exit_event w) (error_event w)
          (stderr w) (zone w) (sent w) (S (tcp_calls w)) (zc_calls w).

Definition bump_zc_calls (w : World) : World :=
  mkWorld (services w) (servers w) (next_id w) (exit_event w) (error_event w)
          (stderr w) (zone w) (sent w) (tcp_calls w) (S (zc_calls w)).

(** The world in which [mirror_mdns] starts, over a zone [z]. *)
Definition initial_world (z : list RRset) : World :=
  mkWorld ∅ ∅ 0 false false [] z [] 0 0.

(** ** Commands *)

(** A command runs in a world and either returns or raises; what it did to
    the world before raising stays done. *)
Definition M (A : Type) : Type := World → Result A * World.

Definition ret {A} (a : A) : M A := λ w, (Ok a, w).

Definition raise {A} (e : Exn) : M A := λ w, (Raise e, w).

Definition bind {A B} (c : M A) (k : A → M B) : M B :=
  λ w, match c w with
       | (Ok a, w') => k a w'
       | (Raise e, w') => (Raise e, w')
       end.

Definition modify (f : World → World) : M unit := λ w, (Ok tt, f w).

Definition gets {A} (f : World → A) : M A := λ w, (Ok (f w), w).

(** [try: body  except Exception: handler]. *)
Definition try_except {A} (body : M A) (handler : Exn → M A) : M A :=
  λ w, match body w with
       | (Ok a, w') => (Ok a, w')
       | (Raise e, w') => handler e w'
       end.

Declare Scope py_scope.
Delimit Scope py_scope with py.
Notation "'do' x <- c ; k" := (bind c (λ x, k))
  (at level 10, x name, c at level 100, k at level 200) : py_scope.
Notation "c ;; k" := (bind c (λ _, k))
  (at level 100, k at level 200, right associativity) : py_scope.

(** [for x in xs: body x]. *)
Fixpoint for_each {A} (xs : list A) (body : A → M unit) : M unit :=
  match xs with
  | [] => ret tt
  | x :: rest => (body x ;; for_each rest body)%py
  end.

Definition result_of {A} (r : Result A * World) : Result A := fst r.
Definition world_of {A} (r : Result A * World) : World := snd r.

(** ** The collaborators *)

(** How the outside behaves during one run: [link k] tells whether the
    [k]-th call of [dns.query.tcp] gets a response ([false]: the call
    raises), and [zc_reply k service_type name] is what the [k]-th call of
    [zc.get_service_info] does. *)
Record Env := mkEnv {
  link : nat → bool;
  zc_reply : nat → string → string → Result (option ServiceInfo)
}.

Definition is_owner (name : string) (rr : RRset) : bool :=
  bool_decide (rr_name rr = name).

(** Modelled from the spec: the authoritative DNS server is an external
    collaborator (the DNS Update Client of section 6).  Section 4.4: a Delete
    operation removes all record data at that name, of any type; a Replace
    puts one record in place of the rrset of that name and type. *)
Definition apply_update (op : DnsOp) (z : list RRset) : list RRset :=
  match op with
  | Delete name => filter (λ rr, negb (is_owner name rr)) z
  | Replace name t ty v =>
      filter (λ rr, negb (is_owner name rr && (rdtype rr =? ty)%N)) z
        ++ [mkRRset name ty (default 0%Z t) [v]]
  end.

(** ** The functions of [app.py] *)

Definition MAX_RETRIES : Z := 3.

Definition str_of_int (n : Z) : string := NilZero.string_of_int (Z.to_int n).

(** [s.split(".")]: never empty; the first part is what precedes the first dot. *)
Fixpoint split_dot (s : string) : list string :=
  match s with
  | EmptyString => [EmptyString]
  | String c rest =>
      if Ascii.eqb c "."%char then EmptyString :: split_dot rest
      else match split_dot rest with
           | part :: parts => String c part :: parts
           | [] => [String c EmptyString]
           end
  end.

(** [xs[0]]. *)
Definition index0 {A} (xs : list A) : M A :=
  match xs with
  | x :: _ => ret x
  | [] => raise IndexError
  end.

(** [xs[0] if xs else None]. *)
Definition first_or_none {A} (xs : list A) : option A :=
  match xs with
  | x :: _ => Some x
  | [] => None
  end.

(** [a != b] for [a : Optional[ServerInfo]] and [b : ServerInfo]: neither
    [NoneType] nor [ServerInfo] overrides the comparison, so it is [a is not b]. *)
Definition ServerInfo_ne (a : option ServerInfo) (b : ServerInfo) : bool :=
  match a with
  | None => true
  | Some a' => negb (obj_id a' =? obj_id b)%nat
  end.

(** [ServerInfo(ipv4_address, ipv6_address, ttl)]: a new object. *)
Definition new_ServerInfo (a4 : option IPv4Address) (a6 : option IPv6Address)
    (t : option Z) : M ServerInfo :=
  λ w, (Ok (mkServerInfo (next_id w) a4 a6 t), set_next_id (S (next_id w)) w).

Section Mirror.

Variable env : Env.

(** [dns.query.tcp(update, dns_server)] for an update message.  The message
    is recorded as sent; the server applies it when the call gets through. *)
Definition dns_query_tcp_update (op : DnsOp) : M unit :=
  λ w, let w' := add_sent op (bump_tcp_calls w) in
       if link env (tcp_calls w)
       then (Ok tt, set_zone (apply_update op (zone w)) w')
       else (Raise (OSError "dns.query.tcp"), w').

(** [dns.query.tcp(query, dns_server)] for the zone transfer query; the
    value is [response.answer]. *)
Definition dns_query_tcp_xfr : M (list RRset) :=
  λ w, let w' := bump_tcp_calls w in
       if link env (tcp_calls w)
       then (Ok (zone w), w')
       else (Raise (OSError "dns.query.tcp"), w').

(** [zc.get_service_info(service_type, name, timeout=...)]. *)
Definition get_service_info (service_type name : string) : M (option ServiceInfo) :=
  λ w, (zc_reply env (zc_calls w) service_type name, bump_zc_calls w).

(** The body of [for n in range(...)] in [retry], run [k] times: [Some x]
    when an iteration returned [x], [None] when the loop ran to its end. *)
Fixpoint retry_loop {T} (callable : M (option T)) (k : nat) : M (option T) :=
  match k with
  | O => ret None
  | S k' =>
      (do result <- callable;
       match result with
       | Some x => ret (Some x)
       | None => retry_loop callable k'
       end)%py
  end.

Definition retry {T} (callable : M (option T)) (max_retries : Z) : M T :=
  (do found <- retry_loop callable (Z.to_nat MAX_RETRIES);
   match found with
   | Some x => ret x
   | None =>
       raise (RuntimeError
                ("no result returned after " +:+ str_of_int max_retries +:+ " retries"))
   end)%py.

Definition fatal_error : M unit :=
  modify (add_stderr "A fatal error occurred.").

(** The first loop of [remove_all_a_records]. *)
Fixpoint collect_record_names (answer : list RRset) (record_names : list string)
    : list string :=
  match answer with
  | [] => record_names
  | rrset :: rest =>
      if (rdtype rrset =? RdataType.A)%N || (rdtype rrset =? RdataType.AAAA)%N
      then collect_record_names rest (record_names ++ [rr_name rrset])
      else collect_record_names rest record_names
  end.

Definition remove_all_a_records : M unit :=
  (do answer <- dns_query_tcp_xfr;
   let record_names := collect_record_names answer [] in
   for_each record_names (λ name, dns_query_tcp_update (Delete name)))%py.

Definition server_updated (server : string) (server_info : ServerInfo) : M unit :=
  (do server_name <- index0 (split_dot server);
   match ipv4_address server_info with
   | Some a4 =>
       dns_query_tcp_update (Replace server_name (ttl server_info) RdataType.A a4)
   | None => ret tt
   end ;;
   match ipv6_address server_info with
   | Some a6 =>
       dns_query_tcp_update (Replace server_name (ttl server_info) RdataType.AAAA a6)
   | None => ret tt
   end)%py.

Definition server_removed (server : string) (server_info : ServerInfo) : M unit :=
  (do server_name <- index0 (split_dot server);
   dns_query_tcp_update (Delete server_name))%py.

Definition service_updated (name : string) (service_info : ServiceInfo) : M unit :=
  (modify (set_services <[name := service_info]>) ;;
   let server := server service_info in
   let ipv4_address := first_or_none (_ipv4_addresses service_info) in
   let ipv6_address := first_or_none (_ipv6_addresses service_info) in
   let ttl := host_ttl service_info in
   do server_info <- new_ServerInfo ipv4_address ipv6_address (Some ttl);
   do stored <- gets (λ w, servers w !! server);
   if ServerInfo_ne stored server_info
   then (modify (set_servers <[server := server_info]>) ;;
         server_updated server server_info)
   else ret tt)%py.

Definition service_removed (name : string) : M unit :=
  (do found <- gets (λ w, services w !! name);
   match found with
   | None => raise (KeyError name)
   | Some service_info =>
       modify (set_services (delete name)) ;;
       let server := server service_info in
       do stored <- gets (λ w, servers w !! server);
       match stored with
       | Some server_info =>
           modify (set_servers (delete server)) ;;
           server_removed server server_info
       | None => ret tt
       end
   end)%py.

Definition on_service_instance_state_change (service_type name : string)
    (state_change : ServiceStateChange) : M unit :=
  try_except
    (match state_change with
     | Added =>
         (do service_info <- retry (get_service_info service_type name) MAX_RETRIES;
          service_updated name service_info)%py
     | Removed => service_removed name
     | Updated =>
         (do service_info <- retry (get_service_info service_type name) MAX_RETRIES;
          service_updated name service_info)%py
     end)
    (λ _, (fatal_error ;; modify (set_error_event true))%py).

(** [while not (exit_event.is_set() or error_event.is_set()): sleep(0.1)],
    for at most [polls] tests of the condition; [None] when still running. *)
Fixpoint main_loop (polls : nat) (w : World) : option World :=
  match polls with
  | O => None
  | S polls' =>
      if negb (exit_event w || error_event w) then main_loop polls' w else Some w
  end.

(** [signal_handler], for SIGINT and SIGTERM: [exit_event.set()]. *)
Definition signal_handler : M unit := modify (set_exit_event true).

(** What [mirror_mdns] does with the DNS server once the loop is left. *)
Definition shutdown : M unit :=
  (do stopping <- gets exit_event;
   if stopping
   then try_except remove_all_a_records (λ _, ret tt)
   else ret tt)%py.

End Mirror.

(** * Vocabulary of the properties *)

(** A cache that never has the service information. *)
Definition never_ready : Env := mkEnv (λ _, true) (λ _ _ _, Ok None).

(** A cache whose second lookup raises. *)
Definition second_lookup_raises : Env :=
  mkEnv (λ _, true)
        (λ k _ _, if k =? 1 then Raise (OtherException "bad type in name") else Ok None).

(** [w'] differs from [w] at most in what belongs to the DNS side: the zone,
    the messages sent and the count of calls. *)
Definition dns_only (w w' : World) : Prop :=
  services w' = services w ∧ servers w' = servers w ∧ next_id w' = next_id w
  ∧ exit_event w' = exit_event w ∧ error_event w' = error_event w
  ∧ stderr w' = stderr w ∧ zc_calls w' = zc_calls w.

(** The value of [server_name] in [server_updated] and [server_removed]: the
    first part of [server.split(".")]. *)
Definition server_name_of (server : string) : string :=
  match split_dot server with
  | part :: _ => part
  | [] => EmptyString
  end.

(** The updates [server_updated] has to send for a snapshot, in order. *)
Definition updates_for (server : string) (server_info : ServerInfo) : list DnsOp :=
  match ipv4_address server_info with
  | Some a4 => [Replace (server_name_of server) (ttl server_info) RdataType.A a4]
  | None => []
  end ++
  match ipv6_address server_info with
  | Some a6 => [Replace (server_name_of server) (ttl server_info) RdataType.AAAA a6]
  | None => []
  end.

(** The object that [service_updated] builds in world [w] for [service_info]. *)
Definition server_info_of (w : World) (service_info : ServiceInfo) : ServerInfo :=
  mkServerInfo (next_id w)
               (first_or_none (_ipv4_addresses service_info))
               (first_or_none (_ipv6_addresses service_info))
               (Some (host_ttl service_info)).

(** Equality of snapshots as the specification has it: all three fields equal. *)
Definition structurally_equal (a b : ServerInfo) : Prop :=
  ipv4_address a = ipv4_address b
  ∧ ipv6_address a = ipv6_address b
  ∧ ttl a = ttl b.

(** The world of [service_updated] once both dictionaries are written and
    before anything is sent. *)
Definition persisted (name : string) (service_info : ServiceInfo) (w : World) : World :=
  set_servers <[server service_info := server_info_of w service_info]>
    (set_next_id (S (next_id w)) (set_services <[name := service_info]> w)).

(** Every stored [ServerInfo] was created before the next one will be. *)
Definition ids_fresh (w : World) : Prop :=
  ∀ s server_info, servers w !! s = Some server_info → obj_id server_info < next_id w.

(** A DNS server that cannot be reached. *)
Definition unreachable : Env := mkEnv (λ _, false) (λ _ _ _, Ok None).

(** The invariant of the specification: a snapshot is stored for a server
    exactly when some stored service instance has that server. *)
Definition store_invariant (w : World) : Prop :=
  ∀ s, is_Some (servers w !! s)
       ↔ ∃ name service_info, services w !! name = Some service_info
                              ∧ server service_info = s.

Inductive StoreOp :=
| Upsert (name : string) (service_info : ServiceInfo)
| Remove (name : string).

Definition run_op (env : Env) (op : StoreOp) : M unit :=
  match op with
  | Upsert name service_info => service_updated env name service_info
  | Remove name => service_removed env name
  end.

Fixpoint run_ops (env : Env) (ops : list StoreOp) (w : World) : World :=
  match ops with
  | [] => w
  | op :: rest => run_ops env rest (world_of (run_op env op w))
  end.

(** An upsert that does not move a stored instance to another server; a
    removal of an instance that is the only one on its server. *)
Definition keeps_server (w : World) (op : StoreOp) : Prop :=
  match op with
  | Upsert name service_info =>
      ∀ old, services w !! name = Some old → server old = server service_info
  | Remove name =>
      ∀ service_info, services w !! name = Some service_info →
        ∀ name' other, services w !! name' = Some other →
                       server other = server service_info → name' = name
  end.

Fixpoint admissible (env : Env) (ops : list StoreOp) (w : World) : Prop :=
  match ops with
  | [] => True
  | op :: rest => keeps_server w op ∧ admissible env rest (world_of (run_op env op w))
  end.

(** The test of the first loop of [remove_all_a_records]. *)
Definition is_address_rrset (rrset : RRset) : bool :=
  (rdtype rrset =? RdataType.A)%N || (rdtype rrset =? RdataType.AAAA)%N.

(** The owner names that hold an A or an AAAA rrset, each named once. *)
Definition address_owners (z : list RRset) : list string :=
  remove_dups (rr_name <$> filter is_address_rrset z).

(** A zone with a stale A record, an AAAA record of the same owner, and
    records of other types. *)
Definition stale_zone : list RRset :=
  [mkRRset "@" RdataType.SOA 3600 [];
   mkRRset "@" RdataType.NS 3600 [];
   mkRRset "stale" RdataType.A 120 [167772165%N];
   mkRRset "stale" RdataType.AAAA 120 [1%N];
   mkRRset "stale" RdataType.TXT 120 [];
   mkRRset "note" RdataType.TXT 120 []].

(** * More of [app.py] and [common.py] *)

(** [on_service_type_state_change].  The list [service_instance_browsers] of
    [mirror_mdns] is handed in, and the list as the call leaves it is the
    value; a [ServiceBrowser] is named by the service type it listens for,
    and its construction is taken to succeed. *)
Definition on_service_type_state_change (service_type name : string)
    (state_change : ServiceStateChange) (service_instance_browsers : list string)
    : M (list string) :=
  try_except
    (match state_change with
     | Added => ret (service_instance_browsers ++ [name])
     | _ => raise (RuntimeError "unexpected state change from service type listener")
     end)
    (λ _, (fatal_error ;; modify (set_error_event true) ;;
           ret service_instance_browsers)%py).

(** A callback of a service instance browser, as zeroconf delivers it. *)
Record Event := mkEvent {
  ev_service_type : string;
  ev_name : string;
  ev_state_change : ServiceStateChange
}.

(** The callbacks of a run, delivered one after the other. *)
Fixpoint run_events (env : Env) (events : list Event) (w : World) : World :=
  match events with
  | [] => w
  | ev :: rest =>
      run_events env rest
        (world_of (on_service_instance_state_change env (ev_service_type ev)
                     (ev_name ev) (ev_state_change ev) w))
  end.

(** A value of type [Union[T, EllipsisType]]. *)
Inductive OrEllipsis (T : Type) :=
| Value (x : T)
| Ellipsis.
Arguments Value {T} x.
Arguments Ellipsis {T}.

(** A value of type [Union[T, bool]]. *)
Inductive OrBool (T : Type) :=
| Plain (x : T)
| Bool (b : bool).
Arguments Plain {T} x.
Arguments Bool {T} b.

(** [get_default_dns_server], over the [nameservers] of the system resolver. *)
Definition get_default_dns_server (nameservers : list string) : OrEllipsis string :=
  match nameservers with
  | nameserver :: _ => Value nameserver
  | [] => Ellipsis
  end.

(** [get_show_default] of [common.py]. *)
Definition get_show_default {T} (default : unit → OrEllipsis T) : OrBool T :=
  let default_value := default tt in
  match default_value with
  | Value x => Plain x
  | Ellipsis => Bool false
  end.

(** The rrsets of one type. *)
Definition has_type (ty : RdataType) (rrset : RRset) : bool := (rdtype rrset =? ty)%N.

(** A DNS server in reach and a cache that answers the first lookup. *)
Definition answers (service_info : ServiceInfo) : Env :=
  mkEnv (λ _, true) (λ _ _ _, Ok (Some service_info)).

(** A DNS server out of reach and a cache that answers the first lookup. *)
Definition answers_unreachable (service_info : ServiceInfo) : Env :=
  mkEnv (λ _, false) (λ _ _ _, Ok (Some service_info)).

(** A cache that answers the third lookup. *)
Definition answers_third (service_info : ServiceInfo) : Env :=
  mkEnv (λ _, true) (λ k _ _, if k =? 2 then Ok (Some service_info) else Ok None).

(** A host with both an IPv4 and an IPv6 address. *)
Definition dual_stack : ServiceInfo :=
  mkServiceInfo "host1.local." [167772165%N] [1%N] 120.

(** [w'] has the flags and the error output of [w]. *)
Definition quiet (w w' : World) : Prop :=
  exit_event w' = exit_event w ∧ error_event w' = error_event w
  ∧ stderr w' = stderr w.

(** Whether a name holds a dot. *)
Fixpoint has_dot (s : string) : bool :=
  match s with
  | EmptyString => false
  | String c rest => Ascii.eqb c "." || has_dot rest
  end.

(** The messages of the reconciler: a deletion, or the replacement of an A
    or an AAAA record, at a name without a dot. *)
Definition mirror_message (op : DnsOp) : Prop :=
  match op with
  | Delete name => has_dot name = false
  | Replace name _ ty _ =>
      has_dot name = false ∧ (ty = RdataType.A ∨ ty = RdataType.AAAA)
  end.

(** Two instances on one host, stored. *)
Definition two_on_one_host : World :=
  run_ops never_ready [Upsert "web" dual_stack; Upsert "ssh" dual_stack]
          (initial_world []).

(** What [on_service_instance_state_change] runs inside its [try]. *)
Definition instance_event_body (env : Env) (service_type name : string)
    (state_change : ServiceStateChange) : M unit :=
  match state_change with
  | Removed => service_removed env name
  | _ =>
      (do service_info <- retry (get_service_info env service_type name) MAX_RETRIES;
       service_updated env name service_info)%py
  end.

(** What its [except] clause leaves of a world. *)
Definition after_fatal_error (w : World) : World :=
  set_error_event true (add_stderr "A fatal error occurred." w).

(** * Properties *)

(** ** Commands and the world *)

Lemma zc_calls_iter_bump k w :
  zc_calls (Nat.iter k bump_zc_calls w) = zc_calls w + k.
Proof.
  induction k as [|k IH]; simpl; [lia|]. rewrite IH. lia.
Qed.

Lemma iter_bump_zc_calls_frame k w :
  services (Nat.iter k bump_zc_calls w) = services w
  ∧ servers (Nat.iter k bump_zc_calls w) = servers w
  ∧ sent (Nat.iter k bump_zc_calls w) = sent w
  ∧ error_event (Nat.iter k bump_zc_calls w) = error_event w.
Proof.
  induction k as [|k IH]; simpl; [done|]. by destruct IH as (-> & -> & -> & ->).
Qed.

(** ** [retry] *)

Section Retry.

Context {T : Type}.
Variable callable : M (option T).

Lemma retry_loop_raises k w e w' :
  callable w = (Raise e, w') → retry_loop callable (S k) w = (Raise e, w').
Proof. intros H. simpl. unfold bind. by rewrite H. Qed.

Lemma retry_loop_returns k w x w' :
  callable w = (Ok (Some x), w') → retry_loop callable (S k) w = (Ok (Some x), w').
Proof. intros H. simpl. unfold bind. by rewrite H. Qed.

Lemma retry_loop_goes_on k w w' :
  callable w = (Ok None, w') → retry_loop callable (S k) w = retry_loop callable k w'.
Proof. intros H. simpl. unfold bind. by rewrite H. Qed.

(** The loop of [retry] never runs the callable more often than its bound:
    past the bound it has stopped. *)
Lemma retry_loop_stops w : retry_loop callable 0 w = (Ok None, w).
Proof. reflexivity. Qed.

End Retry.

Section RetryCalls.

Variable env : Env.
Variables service_type name : string.

Lemma get_service_info_eq w :
  get_service_info env service_type name w
  = (zc_reply env (zc_calls w) service_type name, bump_zc_calls w).
Proof. reflexivity. Qed.

(** [k] empty answers, then an exception, within the bound of the loop. *)
Lemma retry_loop_exception n k w e :
  k < n →
  (∀ j, j < k → zc_reply env (zc_calls w + j) service_type name = Ok None) →
  zc_reply env (zc_calls w + k) service_type name = Raise e →
  retry_loop (get_service_info env service_type name) n w
  = (Raise e, Nat.iter (S k) bump_zc_calls w).
Proof.
  revert n w. induction k as [|k IH]; intros n w Hlt Hnone Hraise.
  - destruct n as [|n]; [lia|].
    apply retry_loop_raises. rewrite get_service_info_eq.
    by rewrite Nat.add_0_r in Hraise; rewrite Hraise.
  - destruct n as [|n]; [lia|].
    rewrite (retry_loop_goes_on _ _ _ (bump_zc_calls w)).
    + rewrite (IH n (bump_zc_calls w)).
      * by rewrite <- (Nat.iter_succ_r (S k)).
      * lia.
      * intros j Hj. simpl. rewrite <- (Hnone (S j)); [f_equal; lia | lia].
      * simpl. rewrite <- Hraise. f_equal. lia.
    + rewrite get_service_info_eq. f_equal.
      rewrite <- (Hnone 0); [f_equal; lia | lia].
Qed.

(** [k] empty answers, then a result, within the bound of the loop. *)
Lemma retry_loop_result n k w x :
  k < n →
  (∀ j, j < k → zc_reply env (zc_calls w + j) service_type name = Ok None) →
  zc_reply env (zc_calls w + k) service_type name = Ok (Some x) →
  retry_loop (get_service_info env service_type name) n w
  = (Ok (Some x), Nat.iter (S k) bump_zc_calls w).
Proof.
  revert n w. induction k as [|k IH]; intros n w Hlt Hnone Hres.
  - destruct n as [|n]; [lia|].
    apply retry_loop_returns. rewrite get_service_info_eq.
    by rewrite Nat.add_0_r in Hres; rewrite Hres.
  - destruct n as [|n]; [lia|].
    rewrite (retry_loop_goes_on _ _ _ (bump_zc_calls w)).
    + rewrite (IH n (bump_zc_calls w)).
      * by rewrite <- (Nat.iter_succ_r (S k)).
      * lia.
      * intros j Hj. simpl. rewrite <- (Hnone (S j)); [f_equal; lia | lia].
      * simpl. rewrite <- Hres. f_equal. lia.
    + rewrite get_service_info_eq. f_equal.
      rewrite <- (Hnone 0); [f_equal; lia | lia].
Qed.

(** Only empty answers: the loop runs to its end, [n] calls later. *)
Lemma retry_loop_empty n w :
  (∀ j, j < n → zc_reply env (zc_calls w + j) service_type name = Ok None) →
  retry_loop (get_service_info env service_type name) n w
  = (Ok None, Nat.iter n bump_zc_calls w).
Proof.
  revert w. induction n as [|n IH]; intros w Hnone; [done|].
  rewrite (retry_loop_goes_on _ _ _ (bump_zc_calls w)).
  - rewrite IH; [by rewrite <- Nat.iter_succ_r|].
    intros j Hj. simpl. rewrite <- (Hnone (S j)); [f_equal; lia | lia].
  - rewrite get_service_info_eq. f_equal.
    rewrite <- (Hnone 0); [f_equal; lia | lia].
Qed.

(** [retry] gives up after [MAX_RETRIES] empty answers, whatever bound it
    was called with; the bound only shows in the message. *)
Lemma retry_exhausted max_retries w :
  (∀ j, j < Z.to_nat MAX_RETRIES →
        zc_reply env (zc_calls w + j) service_type name = Ok None) →
  retry (get_service_info env service_type name) max_retries w
  = (Raise (RuntimeError
              ("no result returned after " +:+ str_of_int max_retries +:+ " retries")),
     Nat.iter (Z.to_nat MAX_RETRIES) bump_zc_calls w).
Proof.
  intros Hnone. unfold retry, bind. by rewrite retry_loop_empty.
Qed.

(** A result ends [retry] at once, with the call that produced it. *)
Lemma retry_returns_first_result max_retries k w x :
  k < Z.to_nat MAX_RETRIES →
  (∀ j, j < k → zc_reply env (zc_calls w + j) service_type name = Ok None) →
  zc_reply env (zc_calls w + k) service_type name = Ok (Some x) →
  retry (get_service_info env service_type name) max_retries w
  = (Ok x, Nat.iter (S k) bump_zc_calls w).
Proof.
  intros Hlt Hnone Hres. unfold retry, bind.
  by rewrite (retry_loop_result _ k w x).
Qed.

End RetryCalls.

(** C3, as the code has it: against an operation that always returns [None],
    [retry] makes [MAX_RETRIES] = 3 invocations for every [max_retries], and
    then raises; [max_retries] appears in the message only.  So a call with
    [max_retries] other than 3 does not make exactly [max_retries]
    invocations, and a call with [max_retries] below 3 makes more. *)
Theorem retry_ignores_max_retries (max_retries : Z) (service_type name : string)
    (w : World) :
  let r := retry (get_service_info never_ready service_type name) max_retries w in
  result_of r
  = Raise (RuntimeError
             ("no result returned after " +:+ str_of_int max_retries +:+ " retries"))
  ∧ zc_calls (world_of r) = zc_calls w + 3.
Proof.
  cbv zeta. rewrite retry_exhausted by done. split; [done|].
  apply (zc_calls_iter_bump 3 w).
Qed.

(** [retry(callable, 1)] on an operation that is never ready: three
    invocations, and a message that speaks of one. *)
Example retry_once_asks_three_times :
  let r := retry (get_service_info never_ready "_http._tcp.local." "web") 1
                 (initial_world []) in
  result_of r = Raise (RuntimeError "no result returned after 1 retries")
  ∧ zc_calls (world_of r) = 3.
Proof. by vm_compute. Qed.

(** C10: when the operation raises at its [k+1]-th invocation, after [k]
    empty results and within the bound of the loop, [retry] raises that very
    exception and has invoked the operation [k+1] times, no more: an
    exception is not taken for an empty result. *)
Theorem retry_propagates_exception (env : Env) (service_type name : string)
    (max_retries : Z) (w : World) (k : nat) (e : Exn) :
  k < Z.to_nat MAX_RETRIES →
  (∀ j, j < k → zc_reply env (zc_calls w + j) service_type name = Ok None) →
  zc_reply env (zc_calls w + k) service_type name = Raise e →
  let r := retry (get_service_info env service_type name) max_retries w in
  r = (Raise e, Nat.iter (S k) bump_zc_calls w)
  ∧ zc_calls (world_of r) = zc_calls w + S k.
Proof.
  intros Hlt Hnone Hraise. cbv zeta.
  assert (retry (get_service_info env service_type name) max_retries w
          = (Raise e, Nat.iter (S k) bump_zc_calls w)) as ->.
  { unfold retry, bind. by rewrite (retry_loop_exception _ _ _ _ k w e). }
  split; [done|]. apply (zc_calls_iter_bump (S k) w).
Qed.

Lemma retry_propagates_exception_witness :
  let r := retry (get_service_info second_lookup_raises "_http._tcp.local." "web")
                 MAX_RETRIES (initial_world []) in
  r = (Raise (OtherException "bad type in name"),
       Nat.iter 2 bump_zc_calls (initial_world []))
  ∧ zc_calls (world_of r) = 2.
Proof.
  apply (retry_propagates_exception second_lookup_raises "_http._tcp.local." "web"
           MAX_RETRIES (initial_world []) 1 (OtherException "bad type in name")).
  - vm_compute. lia.
  - intros j Hj. destruct j as [|j]; [reflexivity | lia].
  - reflexivity.
Defined.

(** ** Talking to the DNS server *)

Lemma dns_only_refl w : dns_only w w.
Proof. by repeat split. Qed.

Lemma dns_only_trans w1 w2 w3 : dns_only w1 w2 → dns_only w2 w3 → dns_only w1 w3.
Proof.
  intros (?&?&?&?&?&?&?) (?&?&?&?&?&?&?). repeat split; congruence.
Qed.

Section Dns.

Variable env : Env.

Lemma dns_query_tcp_update_dns_only op w :
  dns_only w (world_of (dns_query_tcp_update env op w)).
Proof.
  unfold dns_query_tcp_update, world_of. by destruct (link env (tcp_calls w)); repeat split.
Qed.

Lemma dns_query_tcp_update_sent op w :
  sent (world_of (dns_query_tcp_update env op w)) = sent w ++ [op].
Proof.
  unfold dns_query_tcp_update, world_of. by destruct (link env (tcp_calls w)).
Qed.

Lemma dns_query_tcp_update_ok op w :
  result_of (dns_query_tcp_update env op w) = Ok tt →
  zone (world_of (dns_query_tcp_update env op w)) = apply_update op (zone w).
Proof.
  unfold dns_query_tcp_update, world_of, result_of.
  by destruct (link env (tcp_calls w)).
Qed.

Lemma dns_query_tcp_xfr_cases w :
  dns_query_tcp_xfr env w = (Ok (zone w), bump_tcp_calls w)
  ∨ ∃ e, dns_query_tcp_xfr env w = (Raise e, bump_tcp_calls w).
Proof.
  unfold dns_query_tcp_xfr. destruct (link env (tcp_calls w)); eauto.
Qed.

(** A loop of updates touches the DNS side only, and sends a prefix of its
    messages: all of them when it returns. *)
Lemma for_each_update_dns_only (mk : string → DnsOp) names w :
  dns_only w (world_of (for_each names (λ name, dns_query_tcp_update env (mk name)) w)).
Proof.
  revert w. induction names as [|name names IH]; intros w; [apply dns_only_refl|].
  simpl. unfold bind.
  pose proof (dns_query_tcp_update_dns_only (mk name) w) as Hstep.
  destruct (dns_query_tcp_update env (mk name) w) as [[[]|e] w1]; [|done].
  eapply dns_only_trans; [exact Hstep | apply IH].
Qed.

Lemma for_each_update_sent (mk : string → DnsOp) names w :
  ∃ ops, ops `prefix_of` (mk <$> names)
    ∧ sent (world_of (for_each names (λ name, dns_query_tcp_update env (mk name)) w))
      = sent w ++ ops
    ∧ (result_of (for_each names (λ name, dns_query_tcp_update env (mk name)) w) = Ok tt
       → ops = mk <$> names).
Proof.
  revert w. induction names as [|name names IH]; intros w.
  - exists []. simpl. by rewrite app_nil_r.
  - simpl. unfold bind.
    pose proof (dns_query_tcp_update_sent (mk name) w) as Hsent.
    destruct (dns_query_tcp_update env (mk name) w) as [[[]|e] w1].
    + destruct (IH w1) as (ops & Hpre & Hops & Hall).
      exists (mk name :: ops). split; [by apply prefix_cons|].
      split.
      * rewrite Hops. unfold world_of in Hsent. simpl in Hsent. rewrite Hsent.
        by rewrite <- app_assoc.
      * intros Hok. by rewrite Hall.
    + exists [mk name]. split; [apply prefix_cons, prefix_nil|].
      split; [exact Hsent | done].
Qed.

(** When the loop of deletions returns, the server has applied every one. *)
Lemma for_each_delete_zone names w :
  result_of (for_each names (λ name, dns_query_tcp_update env (Delete name)) w) = Ok tt →
  zone (world_of (for_each names (λ name, dns_query_tcp_update env (Delete name)) w))
  = foldl (λ z name, apply_update (Delete name) z) (zone w) names.
Proof.
  revert w. induction names as [|name names IH]; intros w; [done|].
  simpl. unfold bind.
  pose proof (dns_query_tcp_update_ok (Delete name) w) as Hzone.
  destruct (dns_query_tcp_update env (Delete name) w) as [[[]|e] w1]; [|done].
  intros Hok. rewrite IH by exact Hok. f_equal. by apply Hzone.
Qed.

End Dns.

(** ** Server names and the updates of a snapshot *)

Lemma split_dot_cons s : ∃ part parts, split_dot s = part :: parts.
Proof.
  induction s as [|c s IH]; simpl; [by eauto|].
  destruct (Ascii.eqb c "."); [by eauto|].
  destruct IH as (part & parts & ->). eauto.
Qed.

Lemma index0_split_dot server w :
  index0 (split_dot server) w = (Ok (server_name_of server), w).
Proof.
  unfold server_name_of. by destruct (split_dot_cons server) as (part & parts & ->).
Qed.

(** The first part holds no dot, and the server name starts with it. *)
Lemma server_name_of_prefix server :
  ∃ rest, server = server_name_of server +:+ rest
          ∧ (rest = EmptyString ∨ ∃ rest', rest = String "." rest').
Proof.
  unfold server_name_of. induction server as [|c s IH]; simpl.
  - exists EmptyString. by split; [|left].
  - destruct (Ascii.eqb_spec c ".") as [->|Hc].
    + exists (String "." s). split; [done | right; eauto].
    + destruct (split_dot s) as [|part parts].
      * destruct IH as (rest & Hs & Hrest). exists rest. split; [|done].
        simpl in Hs. by rewrite Hs at 1.
      * destruct IH as (rest & Hs & Hrest). exists rest. split; [|done].
        simpl. by rewrite Hs at 1.
Qed.

(** ** The reconciler *)

Section Reconciler.

Variable env : Env.

Lemma server_updated_dns_only server server_info w :
  dns_only w (world_of (server_updated env server server_info w)).
Proof.
  unfold server_updated, bind. rewrite index0_split_dot.
  destruct (ipv4_address server_info) as [a4|].
  - pose proof (dns_query_tcp_update_dns_only env
      (Replace (server_name_of server) (ttl server_info) RdataType.A a4) w) as H4.
    destruct (dns_query_tcp_update env _ w) as [[[]|e] w1]; [|done].
    destruct (ipv6_address server_info) as [a6|]; [|done].
    eapply dns_only_trans; [exact H4 | apply dns_query_tcp_update_dns_only].
  - simpl. destruct (ipv6_address server_info) as [a6|]; [|apply dns_only_refl].
    apply dns_query_tcp_update_dns_only.
Qed.

(** [server_updated] sends the updates of the snapshot, in order, up to the
    first call that fails; all of them when it returns. *)
Lemma server_updated_sent server server_info w :
  ∃ ops, ops `prefix_of` updates_for server server_info
    ∧ sent (world_of (server_updated env server server_info w)) = sent w ++ ops
    ∧ (result_of (server_updated env server server_info w) = Ok tt
       → ops = updates_for server server_info).
Proof.
  unfold server_updated, updates_for, bind. rewrite index0_split_dot.
  destruct (ipv4_address server_info) as [a4|].
  - pose proof (dns_query_tcp_update_sent env
      (Replace (server_name_of server) (ttl server_info) RdataType.A a4) w) as H4.
    destruct (dns_query_tcp_update env _ w) as [[[]|e] w1].
    + unfold world_of in H4. simpl in H4.
      destruct (ipv6_address server_info) as [a6|].
      * eexists. split; [done|]. split; [|done].
        rewrite dns_query_tcp_update_sent, H4. by rewrite <- app_assoc.
      * eexists. split; [done|]. split; [|done]. by rewrite app_nil_r.
    + eexists [_]. split; [|split; [exact H4 | done]].
      apply prefix_cons, prefix_nil.
  - simpl. destruct (ipv6_address server_info) as [a6|].
    + eexists. split; [done|]. split; [|done]. apply dns_query_tcp_update_sent.
    + exists []. split; [done|]. split; [|done]. by rewrite app_nil_r.
Qed.

Lemma server_removed_dns_only server server_info w :
  dns_only w (world_of (server_removed env server server_info w)).
Proof.
  unfold server_removed, bind. rewrite index0_split_dot.
  apply dns_query_tcp_update_dns_only.
Qed.

Lemma server_removed_sent server server_info w :
  sent (world_of (server_removed env server server_info w))
  = sent w ++ [Delete (server_name_of server)].
Proof.
  unfold server_removed, bind. rewrite index0_split_dot.
  apply dns_query_tcp_update_sent.
Qed.

(** [service_updated], statement by statement: both dictionaries are written
    first, and [server_updated] runs in the world so obtained. *)
Lemma service_updated_eq name service_info w :
  service_updated env name service_info w
  = if ServerInfo_ne (servers w !! server service_info) (server_info_of w service_info)
    then server_updated env (server service_info) (server_info_of w service_info)
                        (persisted name service_info w)
    else (Ok tt, set_next_id (S (next_id w)) (set_services <[name := service_info]> w)).
Proof.
  unfold service_updated, bind, modify, new_ServerInfo, gets, ret. simpl.
  by destruct (ServerInfo_ne _ _).
Qed.

(** [service_removed], statement by statement. *)
Lemma service_removed_eq name w :
  service_removed env name w
  = match services w !! name with
    | None => (Raise (KeyError name), w)
    | Some service_info =>
        match servers w !! server service_info with
        | Some server_info =>
            server_removed env (server service_info) server_info
              (set_servers (delete (server service_info))
                 (set_services (delete name) w))
        | None => (Ok tt, set_services (delete name) w)
        end
    end.
Proof.
  unfold service_removed, bind, modify, gets, ret, raise. simpl.
  destruct (services w !! name) as [service_info|]; [|done]. simpl.
  by destruct (servers w !! server service_info).
Qed.

(** What [service_updated] leaves in the two dictionaries, whether or not the
    DNS server could be reached. *)
Lemma service_updated_stores name service_info w :
  let w' := world_of (service_updated env name service_info w) in
  services w' = <[name := service_info]> (services w)
  ∧ servers w'
    = if ServerInfo_ne (servers w !! server service_info) (server_info_of w service_info)
      then <[server service_info := server_info_of w service_info]> (servers w)
      else servers w.
Proof.
  cbv zeta. rewrite service_updated_eq.
  destruct (ServerInfo_ne _ _); [|done].
  destruct (server_updated_dns_only (server service_info)
              (server_info_of w service_info) (persisted name service_info w))
    as (-> & -> & _).
  done.
Qed.

(** What [service_removed] leaves in the two dictionaries. *)
Lemma service_removed_stores name w :
  let w' := world_of (service_removed env name w) in
  match services w !! name with
  | None => services w' = services w ∧ servers w' = servers w
  | Some service_info =>
      services w' = delete name (services w)
      ∧ servers w' = delete (server service_info) (servers w)
  end.
Proof.
  cbv zeta. rewrite service_removed_eq.
  destruct (services w !! name) as [service_info|]; [|done].
  destruct (servers w !! server service_info) as [server_info|] eqn:Hs.
  - destruct (server_removed_dns_only (server service_info) server_info
                (set_servers (delete (server service_info))
                   (set_services (delete name) w)))
      as (-> & -> & _).
    done.
  - simpl. split; [done|]. by rewrite delete_id.
Qed.

End Reconciler.

(** ** Object identities *)

Lemma ids_fresh_initial z : ids_fresh (initial_world z).
Proof. intros s server_info H. simpl in H. by rewrite lookup_empty in H. Qed.

(** In such a world the comparison of [service_updated] is between two
    different objects, or with [None]: it never finds them equal. *)
Lemma ids_fresh_differs w service_info :
  ids_fresh w →
  ServerInfo_ne (servers w !! server service_info) (server_info_of w service_info) = true.
Proof.
  intros Hfresh. unfold ServerInfo_ne.
  destruct (servers w !! server service_info) as [stored|] eqn:Hs; [|done].
  apply Hfresh in Hs. simpl. apply negb_true_iff, Nat.eqb_neq. lia.
Qed.

Lemma ids_fresh_service_updated env name service_info w :
  ids_fresh w → ids_fresh (world_of (service_updated env name service_info w)).
Proof.
  intros Hfresh s server_info.
  assert (next_id (world_of (service_updated env name service_info w)) = S (next_id w))
    as ->.
  { rewrite service_updated_eq. destruct (ServerInfo_ne _ _); [|done].
    by destruct (server_updated_dns_only env (server service_info)
                   (server_info_of w service_info) (persisted name service_info w))
      as (_ & _ & -> & _). }
  destruct (service_updated_stores env name service_info w) as [_ ->].
  destruct (ServerInfo_ne _ _).
  - rewrite lookup_insert. case_decide.
    + intros [= <-]. simpl. lia.
    + intros Hs. apply Hfresh in Hs. lia.
  - intros Hs. apply Hfresh in Hs. lia.
Qed.

Lemma ids_fresh_service_removed env name w :
  ids_fresh w → ids_fresh (world_of (service_removed env name w)).
Proof.
  intros Hfresh s server_info.
  assert (next_id (world_of (service_removed env name w)) = next_id w) as ->.
  { rewrite service_removed_eq. destruct (services w !! name) as [service_info|]; [|done].
    destruct (servers w !! server service_info) as [stored|]; [|done].
    by destruct (server_removed_dns_only env (server service_info) stored
                   (set_servers (delete (server service_info))
                      (set_services (delete name) w)))
      as (_ & _ & -> & _). }
  pose proof (service_removed_stores env name w) as Hst. cbv zeta in Hst.
  destruct (services w !! name) as [service_info|].
  - destruct Hst as [_ ->]. rewrite lookup_delete. case_decide; [done|]. apply Hfresh.
  - destruct Hst as [_ ->]. apply Hfresh.
Qed.

(** ** Upserts *)

Lemma server_updated_link_up env server server_info w :
  (∀ k, link env k = true) →
  result_of (server_updated env server server_info w) = Ok tt.
Proof.
  intros Hup. unfold server_updated, bind. rewrite index0_split_dot.
  unfold dns_query_tcp_update.
  destruct (ipv4_address server_info), (ipv6_address server_info);
    simpl; by rewrite ?Hup.
Qed.

(** With the DNS server in reach, an upsert in a world of fresh identities
    sends the updates of its snapshot, whatever is stored. *)
Lemma service_updated_sent_link_up env name service_info w :
  (∀ k, link env k = true) → ids_fresh w →
  sent (world_of (service_updated env name service_info w))
  = sent w ++ updates_for (server service_info) (server_info_of w service_info).
Proof.
  intros Hup Hfresh. rewrite service_updated_eq, ids_fresh_differs by done.
  destruct (server_updated_sent env (server service_info)
              (server_info_of w service_info) (persisted name service_info w))
    as (ops & _ & -> & Hall).
  rewrite Hall by by apply server_updated_link_up. done.
Qed.

(** C1, as the code has it: two consecutive upserts of one service with the
    same metadata build structurally equal snapshots, and each of them sends
    the updates of its snapshot: the second call is not a no-op.  [ServerInfo]
    defines no [__eq__], so the comparison of [service_updated] is one of
    object identity, and the snapshot just built is never the stored object. *)
Theorem service_updated_twice_sends_twice
    (zc : nat → string → string → Result (option ServiceInfo))
    (z : list RRset) (name : string) (service_info : ServiceInfo) :
  let env := mkEnv (λ _, true) zc in
  let w0 := initial_world z in
  let w1 := world_of (service_updated env name service_info w0) in
  let w2 := world_of (service_updated env name service_info w1) in
  structurally_equal (server_info_of w0 service_info) (server_info_of w1 service_info)
  ∧ servers w1 !! server service_info = Some (server_info_of w0 service_info)
  ∧ sent w1 = updates_for (server service_info) (server_info_of w0 service_info)
  ∧ sent w2 = sent w1 ++ updates_for (server service_info) (server_info_of w0 service_info).
Proof.
  cbv zeta.
  set (env := mkEnv (λ _, true) zc).
  set (w0 := initial_world z).
  set (w1 := world_of (service_updated env name service_info w0)).
  assert (ids_fresh w0) as Hf0 by apply ids_fresh_initial.
  assert (ids_fresh w1) as Hf1 by by apply ids_fresh_service_updated.
  split; [done|]. split; [|split].
  - subst w1. destruct (service_updated_stores env name service_info w0) as [_ ->].
    rewrite ids_fresh_differs by done. apply lookup_insert_eq.
  - subst w1. by rewrite service_updated_sent_link_up.
  - by rewrite (service_updated_sent_link_up env name service_info w1).
Qed.

(** Scenario A of the specification, delivered twice: two [Replace] of the
    same A record. *)
Example scenario_A_twice :
  let service_info := mkServiceInfo "host1.local." [167772165%N] [] 120 in
  let w1 := world_of (service_updated never_ready "host1._srv._tcp.local."
                        service_info (initial_world [])) in
  let w2 := world_of (service_updated never_ready "host1._srv._tcp.local."
                        service_info w1) in
  sent w1 = [Replace "host1" (Some 120%Z) RdataType.A 167772165%N]
  ∧ sent w2 = [Replace "host1" (Some 120%Z) RdataType.A 167772165%N;
               Replace "host1" (Some 120%Z) RdataType.A 167772165%N].
Proof. by vm_compute. Qed.

(** C5: when the comparison of [service_updated] finds the snapshot changed,
    the snapshot is stored under the server before anything is sent:
    [server_updated] starts in the world [persisted], which holds the new
    snapshot and in which no message has been sent yet.  Whatever
    [server_updated] then does, return or raise, the dictionary keeps it. *)
Theorem service_updated_persists_before_dns (env : Env) (name : string)
    (service_info : ServiceInfo) (w : World) :
  ServerInfo_ne (servers w !! server service_info) (server_info_of w service_info) = true →
  let w1 := persisted name service_info w in
  let r := service_updated env name service_info w in
  r = server_updated env (server service_info) (server_info_of w service_info) w1
  ∧ servers w1 !! server service_info = Some (server_info_of w service_info)
  ∧ sent w1 = sent w ∧ tcp_calls w1 = tcp_calls w ∧ zone w1 = zone w
  ∧ servers (world_of r) = servers w1
  ∧ (∀ e, result_of r = Raise e →
          servers (world_of r) !! server service_info = Some (server_info_of w service_info)).
Proof.
  intros Hne. cbv zeta. rewrite service_updated_eq, Hne.
  assert (servers (persisted name service_info w) !! server service_info
          = Some (server_info_of w service_info)) as Hp
    by apply lookup_insert_eq.
  destruct (server_updated_dns_only env (server service_info)
              (server_info_of w service_info) (persisted name service_info w))
    as (_ & Hsame & _).
  repeat split; try done. intros e _. by rewrite Hsame.
Qed.

Lemma service_updated_persists_before_dns_witness :
  let service_info := mkServiceInfo "host1.local." [167772165%N] [] 120 in
  let w := initial_world [] in
  let w1 := persisted "host1._srv._tcp.local." service_info w in
  let r := service_updated unreachable "host1._srv._tcp.local." service_info w in
  r = server_updated unreachable (server service_info) (server_info_of w service_info) w1
  ∧ servers w1 !! server service_info = Some (server_info_of w service_info)
  ∧ sent w1 = sent w ∧ tcp_calls w1 = tcp_calls w ∧ zone w1 = zone w
  ∧ servers (world_of r) = servers w1
  ∧ (∀ e, result_of r = Raise e →
          servers (world_of r) !! server service_info = Some (server_info_of w service_info)).
Proof.
  apply (service_updated_persists_before_dns unreachable "host1._srv._tcp.local."
           (mkServiceInfo "host1.local." [167772165%N] [] 120) (initial_world [])).
  reflexivity.
Defined.

(** With the server out of reach the upsert raises, and the snapshot is stored. *)
Example upsert_unreachable_keeps_snapshot :
  let service_info := mkServiceInfo "host1.local." [167772165%N] [] 120 in
  let r := service_updated unreachable "host1._srv._tcp.local." service_info
                           (initial_world []) in
  result_of r = Raise (OSError "dns.query.tcp")
  ∧ servers (world_of r) !! "host1.local."
    = Some (mkServerInfo 0 (Some 167772165%N) None (Some 120%Z)).
Proof. by vm_compute. Qed.

(** C6: the messages an upsert sends are among the updates of its snapshot.
    None of them is a [Delete]; without an IPv4 address none is for an A
    record, and without an IPv6 address none is for an AAAA record. *)
Theorem service_updated_sends_present_families (env : Env) (name : string)
    (service_info : ServiceInfo) (w : World) :
  ∃ ops,
    sent (world_of (service_updated env name service_info w)) = sent w ++ ops
    ∧ (∀ op, op ∈ ops →
             op ∈ updates_for (server service_info) (server_info_of w service_info))
    ∧ (∀ n, Delete n ∉ ops)
    ∧ (_ipv4_addresses service_info = [] → ∀ n t v, Replace n t RdataType.A v ∉ ops)
    ∧ (_ipv6_addresses service_info = [] → ∀ n t v, Replace n t RdataType.AAAA v ∉ ops).
Proof.
  assert (∃ ops, sent (world_of (service_updated env name service_info w)) = sent w ++ ops
                 ∧ ops `prefix_of`
                     updates_for (server service_info) (server_info_of w service_info))
    as (ops & Hsent & Hpre).
  { rewrite service_updated_eq. destruct (ServerInfo_ne _ _).
    - destruct (server_updated_sent env (server service_info)
                  (server_info_of w service_info) (persisted name service_info w))
        as (ops & Hpre & Hsent & _).
      by exists ops.
    - exists []. split; [by rewrite app_nil_r | apply prefix_nil]. }
  exists ops. split; [done|].
  assert (∀ op, op ∈ ops →
                op ∈ updates_for (server service_info) (server_info_of w service_info))
    as Hin.
  { intros op Hop. destruct Hpre as [rest ->]. apply elem_of_app. by left. }
  split; [done|]. unfold updates_for in Hin. simpl in Hin.
  split; [|split].
  - intros n Hn. apply Hin in Hn.
    destruct (first_or_none (_ipv4_addresses service_info)),
             (first_or_none (_ipv6_addresses service_info));
      apply list_elem_of_In in Hn; unfold RdataType.A, RdataType.AAAA in Hn;
      simpl in Hn; intuition congruence.
  - intros Hnone n t v Hn. apply Hin in Hn. rewrite Hnone in Hn.
    destruct (first_or_none (_ipv6_addresses service_info));
      apply list_elem_of_In in Hn; unfold RdataType.A, RdataType.AAAA in Hn;
      simpl in Hn; intuition congruence.
  - intros Hnone n t v Hn. apply Hin in Hn. rewrite Hnone in Hn.
    destruct (first_or_none (_ipv4_addresses service_info));
      apply list_elem_of_In in Hn; unfold RdataType.A, RdataType.AAAA in Hn;
      simpl in Hn; intuition congruence.
Qed.

(** ** The key of a snapshot *)

(** C4, as the specification has it, fails: the snapshot is stored under the
    whole server name, not under its first label.  Two upserts whose server
    names share the label [host1] write two entries, and none under [host1]. *)
Lemma upserts_sharing_first_label_use_two_entries :
  let a := mkServiceInfo "host1.local." [167772165%N] [] 120 in
  let b := mkServiceInfo "host1.lan." [167772166%N] [] 120 in
  let w1 := world_of (service_updated never_ready "a._srv._tcp.local." a
                        (initial_world [])) in
  let w2 := world_of (service_updated never_ready "b._srv._tcp.local." b w1) in
  (server_name_of (server a) = "host1" ∧ server_name_of (server b) = "host1")
  ∧ servers w1 !! "host1" = None
  ∧ servers w2 !! "host1" = None
  ∧ servers w2 !! "host1.local."
    = Some (mkServerInfo 0 (Some 167772165%N) None (Some 120%Z))
  ∧ servers w2 !! "host1.lan."
    = Some (mkServerInfo 1 (Some 167772166%N) None (Some 120%Z))
  ∧ sent w2 = [Replace "host1" (Some 120%Z) RdataType.A 167772165%N;
               Replace "host1" (Some 120%Z) RdataType.A 167772166%N].
Proof. by vm_compute. Qed.

(** C4, amended: the entry that the comparison of [service_updated] reads,
    and the entry it writes, is the one under the whole server name of the
    metadata; every other entry is left as it is.  The first label of the
    server name is the owner name of the updates sent, and nothing else. *)
Theorem service_updated_keyed_by_server (env : Env) (name : string)
    (service_info : ServiceInfo) (w : World) :
  let w' := world_of (service_updated env name service_info w) in
  let server_info := server_info_of w service_info in
  servers w'
  = (if ServerInfo_ne (servers w !! server service_info) server_info
     then <[server service_info := server_info]> (servers w)
     else servers w)
  ∧ (∀ key, key ≠ server service_info → servers w' !! key = servers w !! key)
  ∧ (∀ op, op ∈ sent w' →
           op ∈ sent w
           ∨ ∃ t ty v, op = Replace (server_name_of (server service_info)) t ty v).
Proof.
  cbv zeta.
  destruct (service_updated_stores env name service_info w) as [_ Hservers].
  split; [exact Hservers|]. split.
  - intros key Hkey. rewrite Hservers. destruct (ServerInfo_ne _ _); [|done].
    by rewrite lookup_insert_ne.
  - intros op Hop.
    assert (∃ ops, sent (world_of (service_updated env name service_info w))
                   = sent w ++ ops
                   ∧ ops `prefix_of`
                       updates_for (server service_info) (server_info_of w service_info))
      as (ops & Hsent & [rest Hpre]).
    { rewrite service_updated_eq. destruct (ServerInfo_ne _ _).
      - destruct (server_updated_sent env (server service_info)
                    (server_info_of w service_info) (persisted name service_info w))
          as (ops & Hpre & Hsent & _).
        by exists ops.
      - exists []. split; [by rewrite app_nil_r | apply prefix_nil]. }
    rewrite Hsent in Hop. apply elem_of_app in Hop as [Hop|Hop]; [by left|right].
    assert (op ∈ updates_for (server service_info) (server_info_of w service_info))
      as Hin by (rewrite Hpre; apply elem_of_app; by left).
    unfold updates_for in Hin. apply elem_of_app in Hin as [Hin|Hin].
    + destruct (ipv4_address (server_info_of w service_info));
        apply list_elem_of_In in Hin; simpl in Hin; [|done].
      destruct Hin as [<-|[]]. eauto.
    + destruct (ipv6_address (server_info_of w service_info));
        apply list_elem_of_In in Hin; simpl in Hin; [|done].
      destruct Hin as [<-|[]]. eauto.
Qed.

(** ** The two dictionaries *)

Lemma store_invariant_initial z : store_invariant (initial_world z).
Proof.
  intros s. simpl. rewrite lookup_empty. split.
  - by intros [? ?].
  - intros (name & service_info & H & _). by rewrite lookup_empty in H.
Qed.

Lemma store_invariant_upsert env name service_info w :
  store_invariant w → keeps_server w (Upsert name service_info) →
  store_invariant (world_of (service_updated env name service_info w)).
Proof.
  intros Hinv Hkeep s. simpl in Hkeep.
  destruct (service_updated_stores env name service_info w) as [-> ->].
  assert (is_Some (servers w !! s) ∨ s = server service_info
          ↔ ∃ n i, <[name := service_info]> (services w) !! n = Some i ∧ server i = s)
    as Hmain.
  { split.
    - intros [Hs| ->].
      + apply Hinv in Hs as (n & i & Hn & Hi).
        destruct (decide (n = name)) as [->|Hne].
        * exists name, service_info. rewrite lookup_insert_eq. split; [done|].
          by rewrite <- (Hkeep i Hn).
        * exists n, i. by rewrite lookup_insert_ne.
      + exists name, service_info. by rewrite lookup_insert_eq.
    - intros (n & i & Hn & Hi). destruct (decide (n = name)) as [->|Hne].
      + rewrite lookup_insert_eq in Hn. injection Hn as <-. by right.
      + rewrite lookup_insert_ne in Hn by done. left. apply Hinv. eauto. }
  rewrite <- Hmain. destruct (ServerInfo_ne _ _) eqn:Hne.
  - rewrite lookup_insert_is_Some. split.
    + intros [<-|[_ Hs]]; [by right | by left].
    + intros [Hs| ->]; [|by left].
      destruct (decide (server service_info = s)); [by left | by right].
  - split; [by left|]. intros [Hs| ->]; [done|].
    unfold ServerInfo_ne in Hne.
    by destruct (servers w !! server service_info).
Qed.

Lemma store_invariant_remove env name w :
  store_invariant w → keeps_server w (Remove name) →
  store_invariant (world_of (service_removed env name w)).
Proof.
  intros Hinv Hkeep s. simpl in Hkeep.
  pose proof (service_removed_stores env name w) as Hst. cbv zeta in Hst.
  destruct (services w !! name) as [service_info|] eqn:Hname.
  - destruct Hst as [-> ->]. rewrite lookup_delete_is_Some. split.
    + intros [Hs Hsome]. apply Hinv in Hsome as (n & i & Hn & Hi).
      exists n, i. split; [|done]. rewrite lookup_delete_ne; [done|].
      intros <-. rewrite Hname in Hn. injection Hn as <-. done.
    + intros (n & i & Hn & Hi). apply lookup_delete_Some in Hn as [Hne Hn].
      split.
      * intros Hs. apply Hne. symmetry. apply (Hkeep service_info eq_refl n i Hn).
        by rewrite Hi.
      * apply Hinv. eauto.
  - destruct Hst as [-> ->]. apply Hinv.
Qed.

(** C2, as the specification has it, fails: after two instances on one
    server are stored and one of them is removed, the other is still stored
    and its server has no snapshot. *)
Lemma shared_server_removal_breaks_invariant :
  let a := mkServiceInfo "host1.local." [167772165%N] [] 120 in
  let ops := [Upsert "web" a; Upsert "ssh" a; Remove "web"] in
  let w := run_ops never_ready ops (initial_world []) in
  store_invariant (initial_world [])
  ∧ services w !! "ssh" = Some a
  ∧ servers w !! server a = None
  ∧ ¬ store_invariant w.
Proof.
  cbv zeta. split; [apply store_invariant_initial|].
  split; [by vm_compute|]. split; [by vm_compute|].
  intros Hinv.
  destruct (proj2 (Hinv "host1.local.")) as [stored Hstored].
  - eexists "ssh", _. split; [by vm_compute | done].
  - vm_compute in Hstored. discriminate Hstored.
Qed.

(** An instance that moves to another server leaves the snapshot of the
    server it came from. *)
Example moved_instance_leaves_snapshot :
  let a := mkServiceInfo "host1.local." [167772165%N] [] 120 in
  let b := mkServiceInfo "host2.local." [167772165%N] [] 120 in
  let w := run_ops never_ready [Upsert "web" a; Upsert "web" b] (initial_world []) in
  services w !! "web" = Some b
  ∧ servers w !! "host1.local." = Some (mkServerInfo 0 (Some 167772165%N) None (Some 120%Z)).
Proof. by vm_compute. Qed.

(** C2, amended: the invariant is kept by every sequence of upserts and
    removals in which no upsert moves a stored instance to another server and
    every removal takes the only instance of its server. *)
Theorem store_invariant_preserved (env : Env) (ops : list StoreOp) (w : World) :
  store_invariant w → admissible env ops w → store_invariant (run_ops env ops w).
Proof.
  revert w. induction ops as [|op ops IH]; intros w Hinv Hadm; [done|].
  destruct Hadm as [Hkeep Hadm]. simpl. apply IH; [|done].
  destruct op as [name service_info|name].
  - by apply store_invariant_upsert.
  - by apply store_invariant_remove.
Qed.

Lemma store_invariant_preserved_witness :
  let a := mkServiceInfo "host1.local." [167772165%N] [] 120 in
  let a' := mkServiceInfo "host1.local." [167772166%N] [] 120 in
  store_invariant
    (run_ops unreachable [Upsert "web" a; Upsert "web" a'; Remove "web"]
       (initial_world [])).
Proof.
  apply (store_invariant_preserved unreachable
           [Upsert "web" (mkServiceInfo "host1.local." [167772165%N] [] 120);
            Upsert "web" (mkServiceInfo "host1.local." [167772166%N] [] 120);
            Remove "web"]
           (initial_world [])).
  - apply store_invariant_initial.
  - split; [|split; [|split; [|exact I]]].
    + intros old Hold. vm_compute in Hold. discriminate Hold.
    + intros old Hold. vm_compute in Hold. injection Hold as <-. reflexivity.
    + intros service_info _ name' other Hother _.
      destruct (decide (name' = "web")) as [->|Hne]; [reflexivity|].
      unfold run_op in Hother.
      rewrite (proj1 (service_updated_stores _ _ _ _)) in Hother.
      rewrite lookup_insert_ne in Hother by done.
      rewrite (proj1 (service_updated_stores _ _ _ _)) in Hother.
      rewrite lookup_insert_ne in Hother by done.
      simpl in Hother. rewrite lookup_empty in Hother. discriminate Hother.
Defined.

(** ** Removal events *)

(** C7: a [Removed] event for a name that [services] does not hold makes
    [service_removed] raise [KeyError]; the handler of
    [on_service_instance_state_change] reports the fatal error and sets
    [error_event], and the loop of [mirror_mdns] is left at its next test. *)
Theorem removal_of_unknown_instance_is_fatal (env : Env) (service_type name : string)
    (w : World) :
  services w !! name = None →
  let r := on_service_instance_state_change env service_type name Removed w in
  service_removed env name w = (Raise (KeyError name), w)
  ∧ r = (Ok tt, set_error_event true (add_stderr "A fatal error occurred." w))
  ∧ error_event (world_of r) = true
  ∧ (∀ polls, main_loop (S polls) (world_of r) = Some (world_of r)).
Proof.
  intros Hnone. cbv zeta.
  assert (service_removed env name w = (Raise (KeyError name), w)) as Hraise
    by by rewrite service_removed_eq, Hnone.
  assert (on_service_instance_state_change env service_type name Removed w
          = (Ok tt, set_error_event true (add_stderr "A fatal error occurred." w)))
    as ->.
  { unfold on_service_instance_state_change, try_except. by rewrite Hraise. }
  repeat split; [done|]. intros polls. simpl. by rewrite orb_true_r.
Qed.

(** Scenario C of the specification: the instance is added, removed, and
    removed once more. *)
Lemma removal_of_unknown_instance_is_fatal_witness :
  let service_info := mkServiceInfo "host1.local." [167772165%N] [] 120 in
  let name := "host1._srv._tcp.local." in
  let w := run_ops never_ready [Upsert name service_info; Remove name] (initial_world []) in
  let r := on_service_instance_state_change never_ready "_srv._tcp.local." name Removed w in
  service_removed never_ready name w = (Raise (KeyError name), w)
  ∧ r = (Ok tt, set_error_event true (add_stderr "A fatal error occurred." w))
  ∧ error_event (world_of r) = true
  ∧ (∀ polls, main_loop (S polls) (world_of r) = Some (world_of r)).
Proof.
  apply (removal_of_unknown_instance_is_fatal never_ready "_srv._tcp.local."
           "host1._srv._tcp.local."
           (run_ops never_ready
              [Upsert "host1._srv._tcp.local."
                 (mkServiceInfo "host1.local." [167772165%N] [] 120);
               Remove "host1._srv._tcp.local."]
              (initial_world []))).
  by vm_compute.
Defined.

(** The first removal of scenario C sends one [Delete] for [host1]. *)
Example scenario_C_first_removal :
  let service_info := mkServiceInfo "host1.local." [167772165%N] [] 120 in
  let name := "host1._srv._tcp.local." in
  let w := run_ops never_ready [Upsert name service_info; Remove name] (initial_world []) in
  sent w = [Replace "host1" (Some 120%Z) RdataType.A 167772165%N; Delete "host1"]
  ∧ error_event w = false.
Proof. by vm_compute. Qed.

(** ** The zone sweep *)

Lemma collect_record_names_eq answer record_names :
  collect_record_names answer record_names
  = record_names ++ (rr_name <$> filter is_address_rrset answer).
Proof.
  revert record_names. induction answer as [|rrset answer IH]; intros record_names.
  - simpl. by rewrite app_nil_r.
  - simpl. rewrite filter_cons. fold (is_address_rrset rrset).
    destruct (is_address_rrset rrset); simpl.
    + rewrite IH. by rewrite <- app_assoc.
    + apply IH.
Qed.

Section Sweep.

Variable env : Env.

(** [remove_all_a_records]: the transfer, then one deletion for every rrset
    the first loop kept. *)
Lemma remove_all_a_records_eq w :
  remove_all_a_records env w
  = if link env (tcp_calls w)
    then for_each (rr_name <$> filter is_address_rrset (zone w))
                  (λ name, dns_query_tcp_update env (Delete name))
                  (bump_tcp_calls w)
    else (Raise (OSError "dns.query.tcp"), bump_tcp_calls w).
Proof.
  unfold remove_all_a_records, bind, dns_query_tcp_xfr.
  destruct (link env (tcp_calls w)); [|done].
  by rewrite collect_record_names_eq.
Qed.

Lemma remove_all_a_records_dns_only w :
  dns_only w (world_of (remove_all_a_records env w)).
Proof.
  rewrite remove_all_a_records_eq. destruct (link env (tcp_calls w)).
  - eapply dns_only_trans; [|apply for_each_update_dns_only]. by repeat split.
  - by repeat split.
Qed.

(** A sweep that returns has sent one deletion for every A or AAAA rrset of
    the transfer, in the order of the transfer. *)
Lemma remove_all_a_records_sent w :
  result_of (remove_all_a_records env w) = Ok tt →
  sent (world_of (remove_all_a_records env w))
  = sent w ++ ((λ rrset, Delete (rr_name rrset)) <$> filter is_address_rrset (zone w)).
Proof.
  rewrite remove_all_a_records_eq. destruct (link env (tcp_calls w)); [|done].
  intros Hok.
  destruct (for_each_update_sent env Delete
              (rr_name <$> filter is_address_rrset (zone w)) (bump_tcp_calls w))
    as (ops & _ & -> & Hall).
  rewrite Hall by done. simpl. by rewrite <- list_fmap_compose.
Qed.

(** A sweep that finds no A or AAAA rrset sends nothing, return or raise. *)
Lemma remove_all_a_records_clean_zone w :
  filter is_address_rrset (zone w) = [] →
  sent (world_of (remove_all_a_records env w)) = sent w.
Proof.
  intros Hclean. rewrite remove_all_a_records_eq, Hclean.
  by destruct (link env (tcp_calls w)).
Qed.

End Sweep.

(** What deletions leave of a zone: the rrsets of the other owners. *)
Lemma elem_of_deleted_zone (rr : RRset) names z :
  rr ∈ foldl (λ z name, apply_update (Delete name) z) z names
  ↔ rr ∈ z ∧ rr_name rr ∉ names.
Proof.
  revert z. induction names as [|name names IH]; intros z; simpl.
  - split; [intros H; split; [done | apply not_elem_of_nil] | by intros [H _]].
  - rewrite IH, list_elem_of_filter, not_elem_of_cons.
    unfold is_owner. rewrite negb_True, bool_decide_spec.
    split.
    + intros [[Hname Hrr] Hnames]. split; [done|]. split; [done|]. exact Hnames.
    + intros [Hrr [Hname Hnames]]. done.
Qed.

Lemma filter_nil_intro {A} (P : A → Prop) `{∀ x, Decision (P x)} (l : list A) :
  (∀ x, x ∈ l → ¬ P x) → filter P l = [].
Proof.
  intros Hnot. destruct (filter P l) as [|x l'] eqn:Hf; [done|].
  assert (x ∈ filter P l) as Hx by (rewrite Hf; apply list_elem_of_here).
  apply list_elem_of_filter in Hx as [HP Hx]. by destruct (Hnot x Hx).
Qed.

(** C8: after a sweep that returned, the zone holds no A and no AAAA rrset,
    and a second sweep sends no deletion; more generally a sweep of a zone
    without A and AAAA rrsets sends nothing. *)
Theorem second_sweep_sends_nothing (env : Env) (w : World) :
  result_of (remove_all_a_records env w) = Ok tt →
  let w1 := world_of (remove_all_a_records env w) in
  filter is_address_rrset (zone w1) = []
  ∧ sent (world_of (remove_all_a_records env w1)) = sent w1
  ∧ (∀ w', filter is_address_rrset (zone w') = [] →
           sent (world_of (remove_all_a_records env w')) = sent w').
Proof.
  intros Hok. cbv zeta.
  assert (filter is_address_rrset (zone (world_of (remove_all_a_records env w))) = [])
    as Hclean.
  { rewrite remove_all_a_records_eq in Hok |- *.
    destruct (link env (tcp_calls w)); [|done].
    rewrite for_each_delete_zone by done. simpl.
    apply filter_nil_intro. intros rr Hrr Haddr.
    apply elem_of_deleted_zone in Hrr as [Hrr Hname]. apply Hname.
    apply list_elem_of_fmap. exists rr. split; [done|].
    by apply list_elem_of_filter. }
  split; [done|]. split.
  - by apply remove_all_a_records_clean_zone.
  - intros w'. apply remove_all_a_records_clean_zone.
Qed.

Lemma second_sweep_sends_nothing_witness :
  let w := initial_world stale_zone in
  let w1 := world_of (remove_all_a_records never_ready w) in
  filter is_address_rrset (zone w1) = []
  ∧ sent (world_of (remove_all_a_records never_ready w1)) = sent w1
  ∧ (∀ w', filter is_address_rrset (zone w') = [] →
           sent (world_of (remove_all_a_records never_ready w')) = sent w').
Proof.
  apply (second_sweep_sends_nothing never_ready (initial_world stale_zone)).
  reflexivity.
Defined.

(** C9, as the specification has it, fails: an owner that holds an A rrset
    and an AAAA rrset is one owner name, and the sweep sends two deletions
    for it. *)
Lemma sweep_deletes_owner_of_both_families_twice :
  let w := world_of (remove_all_a_records never_ready (initial_world stale_zone)) in
  address_owners stale_zone = ["stale"]
  ∧ sent w = [Delete "stale"; Delete "stale"].
Proof. by vm_compute. Qed.

(** C9, amended: a sweep that returns has sent exactly one deletion for every
    A or AAAA rrset of the transfer, in the order of the transfer: as many
    deletions for an owner name as it holds rrsets of these two types, and
    none for a name that holds rrsets of other types only. *)
Theorem sweep_deletes_once_per_address_rrset (env : Env) (w : World) :
  result_of (remove_all_a_records env w) = Ok tt →
  ∃ ops,
    sent (world_of (remove_all_a_records env w)) = sent w ++ ops
    ∧ ops = (λ rrset, Delete (rr_name rrset)) <$> filter is_address_rrset (zone w)
    ∧ (∀ name,
         length (filter (λ op, op = Delete name) ops)
         = length (filter (λ rrset, is_address_rrset rrset ∧ rr_name rrset = name)
                          (zone w)))
    ∧ (∀ name, (∀ rrset, rrset ∈ zone w → rr_name rrset = name →
                         ¬ is_address_rrset rrset) →
               Delete name ∉ ops).
Proof.
  intros Hok. eexists. split; [by apply remove_all_a_records_sent|].
  split; [done|]. split.
  - intros name. induction (zone w) as [|rr z IH]; [done|].
    rewrite !filter_cons. destruct (decide (is_address_rrset rr)) as [Ha|Ha].
    + rewrite fmap_cons, filter_cons.
      destruct (decide (Delete (rr_name rr) = Delete name)) as [Hd|Hd],
               (decide (is_address_rrset rr ∧ rr_name rr = name)) as [Hc|Hc]; simpl.
      * by rewrite IH.
      * destruct Hc. split; [done | congruence].
      * destruct Hd. by destruct Hc as [_ ->].
      * exact IH.
    + destruct (decide (is_address_rrset rr ∧ rr_name rr = name)) as [[Hc _]|_];
        [done | exact IH].
  - intros name Hother Hin. apply list_elem_of_fmap in Hin as (rr & Heq & Hrr).
    injection Heq as Hname.
    apply list_elem_of_filter in Hrr as [Haddr Hrr]. by apply (Hother rr).
Qed.

Lemma sweep_deletes_once_per_address_rrset_witness :
  let w := initial_world stale_zone in
  ∃ ops,
    sent (world_of (remove_all_a_records never_ready w)) = sent w ++ ops
    ∧ ops = (λ rrset, Delete (rr_name rrset)) <$> filter is_address_rrset (zone w)
    ∧ (∀ name,
         length (filter (λ op, op = Delete name) ops)
         = length (filter (λ rrset, is_address_rrset rrset ∧ rr_name rrset = name)
                          (zone w)))
    ∧ (∀ name, (∀ rrset, rrset ∈ zone w → rr_name rrset = name →
                         ¬ is_address_rrset rrset) →
               Delete name ∉ ops).
Proof.
  apply (sweep_deletes_once_per_address_rrset never_ready (initial_world stale_zone)).
  reflexivity.
Defined.

(** Scenario D of the specification: one stale A record, one deletion. *)
Example scenario_D :
  let z := [mkRRset "@" RdataType.SOA 3600 []; mkRRset "stale" RdataType.A 120 [167772165%N]] in
  let r := remove_all_a_records never_ready (initial_world z) in
  result_of r = Ok tt
  ∧ sent (world_of r) = [Delete "stale"]
  ∧ zone (world_of r) = [mkRRset "@" RdataType.SOA 3600 []].
Proof. by vm_compute. Qed.

(** ** Leaving the loop *)

(** After a fatal error alone the closing sweep is skipped. *)
Lemma shutdown_after_fatal_error env w :
  exit_event w = false → shutdown env w = (Ok tt, w).
Proof. intros Hexit. unfold shutdown, bind, gets. by rewrite Hexit. Qed.

(** After a signal the loop is left and the closing sweep runs; an error of
    the sweep is swallowed. *)
Lemma shutdown_after_signal env w :
  let w' := world_of (signal_handler w) in
  (∀ polls, main_loop (S polls) w' = Some w')
  ∧ result_of (shutdown env w') = Ok tt
  ∧ world_of (shutdown env w') = world_of (remove_all_a_records env w').
Proof.
  cbv zeta. split; [done|].
  unfold shutdown, bind, gets, try_except, signal_handler, modify, world_of, result_of.
  simpl. by destruct (remove_all_a_records env (set_exit_event true w)) as [[[]|e] w1].
Qed.

(** * Further properties *)

(** ** [retry], every outcome *)

(** The answers of an operation, up to a bound: a result after empty
    answers, an exception after empty answers, or empty answers only. *)
Lemma replies_cases {T} (reply : nat → Result (option T)) n :
  (∃ k x, k < n ∧ (∀ j, j < k → reply j = Ok None) ∧ reply k = Ok (Some x))
  ∨ (∃ k e, k < n ∧ (∀ j, j < k → reply j = Ok None) ∧ reply k = Raise e)
  ∨ (∀ j, j < n → reply j = Ok None).
Proof.
  induction n as [|n IH]; [right; right; intros j Hj; lia|].
  destruct IH as [(k & x & Hk & Hnone & Hx) | [(k & e & Hk & Hnone & He) | Hnone]].
  - left. exists k, x. split; [lia | done].
  - right; left. exists k, e. split; [lia | done].
  - destruct (reply n) as [[x|]|e] eqn:Hn.
    + left. exists n, x. split; [lia | done].
    + right; right. intros j Hj.
      destruct (decide (j = n)) as [->|Hne]; [done | apply Hnone; lia].
    + right; left. exists n, e. split; [lia | done].
Qed.

Section RetryOutcomes.

Variable env : Env.
Variables service_type name : string.

(** The three ways [retry] can end. *)
Lemma retry_cases max_retries w :
  (∃ k x, k < Z.to_nat MAX_RETRIES
     ∧ (∀ j, j < k → zc_reply env (zc_calls w + j) service_type name = Ok None)
     ∧ zc_reply env (zc_calls w + k) service_type name = Ok (Some x)
     ∧ retry (get_service_info env service_type name) max_retries w
       = (Ok x, Nat.iter (S k) bump_zc_calls w))
  ∨ (∃ k e, k < Z.to_nat MAX_RETRIES
     ∧ (∀ j, j < k → zc_reply env (zc_calls w + j) service_type name = Ok None)
     ∧ zc_reply env (zc_calls w + k) service_type name = Raise e
     ∧ retry (get_service_info env service_type name) max_retries w
       = (Raise e, Nat.iter (S k) bump_zc_calls w))
  ∨ ((∀ j, j < Z.to_nat MAX_RETRIES →
           zc_reply env (zc_calls w + j) service_type name = Ok None)
     ∧ retry (get_service_info env service_type name) max_retries w
       = (Raise (RuntimeError
                   ("no result returned after " +:+ str_of_int max_retries
                      +:+ " retries")),
          Nat.iter (Z.to_nat MAX_RETRIES) bump_zc_calls w)).
Proof.
  destruct (replies_cases (λ j, zc_reply env (zc_calls w + j) service_type name)
              (Z.to_nat MAX_RETRIES))
    as [(k & x & Hk & Hnone & Hx) | [(k & e & Hk & Hnone & He) | Hnone]].
  - left. exists k, x. repeat split; try done.
    by apply retry_returns_first_result.
  - right; left. exists k, e. repeat split; try done.
    unfold retry, bind. by rewrite (retry_loop_exception _ _ _ _ k w e).
  - right; right. split; [done|]. by apply retry_exhausted.
Qed.

(** X2: whatever the operation does, [retry] invokes it at least once and at
    most [MAX_RETRIES] = 3 times, and changes nothing else in the world. *)
Theorem retry_invocation_bounds (max_retries : Z) (w : World) :
  ∃ k, 1 ≤ k ≤ 3
       ∧ world_of (retry (get_service_info env service_type name) max_retries w)
         = Nat.iter k bump_zc_calls w
       ∧ zc_calls (world_of (retry (get_service_info env service_type name)
                               max_retries w))
         = zc_calls w + k.
Proof.
  destruct (retry_cases max_retries w)
    as [(k & x & Hk & _ & _ & ->) | [(k & e & Hk & _ & _ & ->) | [_ ->]]].
  - exists (S k). change (Z.to_nat MAX_RETRIES) with 3 in Hk.
    split; [lia|]. split; [done | apply (zc_calls_iter_bump (S k) w)].
  - exists (S k). change (Z.to_nat MAX_RETRIES) with 3 in Hk.
    split; [lia|]. split; [done | apply (zc_calls_iter_bump (S k) w)].
  - exists 3. split; [lia|]. split; [done | apply (zc_calls_iter_bump 3 w)].
Qed.

(** X3: a value that [retry] returns is the first non-empty result of the
    operation: some invocation [k+1], within the bound, returned it, every
    invocation before returned [None], and none was made after. *)
Theorem retry_result_is_first_result (max_retries : Z) (w : World) (x : ServiceInfo) :
  result_of (retry (get_service_info env service_type name) max_retries w) = Ok x →
  ∃ k, k < 3
       ∧ (∀ j, j < k → zc_reply env (zc_calls w + j) service_type name = Ok None)
       ∧ zc_reply env (zc_calls w + k) service_type name = Ok (Some x)
       ∧ zc_calls (world_of (retry (get_service_info env service_type name)
                               max_retries w))
         = zc_calls w + S k.
Proof.
  destruct (retry_cases max_retries w)
    as [(k & y & Hk & Hnone & Hy & ->) | [(k & e & _ & _ & _ & ->) | [_ ->]]];
    [|done|done].
  intros [= ->]. exists k. change (Z.to_nat MAX_RETRIES) with 3 in Hk.
  repeat split; try done. apply (zc_calls_iter_bump (S k) w).
Qed.

End RetryOutcomes.

(** X1: when the operation returns a result at its [k+1]-th invocation, after
    [k] empty results and within the bound of the loop, [retry] returns that
    result and has invoked the operation [k+1] times, no more. *)
Theorem retry_stops_at_first_result (env : Env) (service_type name : string)
    (max_retries : Z) (w : World) (k : nat) (x : ServiceInfo) :
  k < Z.to_nat MAX_RETRIES →
  (∀ j, j < k → zc_reply env (zc_calls w + j) service_type name = Ok None) →
  zc_reply env (zc_calls w + k) service_type name = Ok (Some x) →
  let r := retry (get_service_info env service_type name) max_retries w in
  r = (Ok x, Nat.iter (S k) bump_zc_calls w)
  ∧ zc_calls (world_of r) = zc_calls w + S k.
Proof.
  intros Hlt Hnone Hres. cbv zeta.
  rewrite (retry_returns_first_result env service_type name max_retries k w x)
    by done.
  split; [done | apply (zc_calls_iter_bump (S k) w)].
Qed.

Lemma retry_stops_at_first_result_witness :
  let r := retry (get_service_info (answers_third dual_stack) "_http._tcp.local." "web")
                 MAX_RETRIES (initial_world []) in
  r = (Ok dual_stack, Nat.iter 3 bump_zc_calls (initial_world []))
  ∧ zc_calls (world_of r) = 3.
Proof.
  apply (retry_stops_at_first_result (answers_third dual_stack) "_http._tcp.local."
           "web" MAX_RETRIES (initial_world []) 2 dual_stack).
  - vm_compute. lia.
  - intros j Hj. destruct j as [|[|j]]; [reflexivity | reflexivity | lia].
  - reflexivity.
Defined.

Lemma retry_result_is_first_result_witness :
  ∃ k, k < 3
       ∧ (∀ j, j < k →
               zc_reply (answers_third dual_stack) (zc_calls (initial_world []) + j)
                        "_http._tcp.local." "web" = Ok None)
       ∧ zc_reply (answers_third dual_stack) (zc_calls (initial_world []) + k)
                  "_http._tcp.local." "web" = Ok (Some dual_stack)
       ∧ zc_calls (world_of (retry (get_service_info (answers_third dual_stack)
                                      "_http._tcp.local." "web")
                                   MAX_RETRIES (initial_world [])))
         = zc_calls (initial_world []) + S k.
Proof.
  apply (retry_result_is_first_result (answers_third dual_stack) "_http._tcp.local."
           "web" MAX_RETRIES (initial_world []) dual_stack).
  reflexivity.
Defined.

(** ** Removals *)



(** X5: a removal leaves every other instance as it is, drops at most the
    snapshot of the removed instance's server, and sends at most one
    message, the deletion at the first label of that server name. *)
Theorem service_removed_frame (env : Env) (name : string) (w : World) :
  let w' := world_of (service_removed env name w) in
  (∀ name', name' ≠ name → services w' !! name' = services w !! name')
  ∧ (∀ key, servers w' !! key = servers w !! key
            ∨ (servers w' !! key = None
               ∧ ∃ service_info, services w !! name = Some service_info
                                 ∧ server service_info = key))
  ∧ (∃ ops, sent w' = sent w ++ ops
            ∧ length ops ≤ 1
            ∧ ∀ op, op ∈ ops →
                    ∃ service_info, services w !! name = Some service_info
                                    ∧ op = Delete (server_name_of (server service_info)))
  ∧ next_id w' = next_id w.
Proof.
  cbv zeta.
  pose proof (service_removed_stores env name w) as Hst. cbv zeta in Hst.
  pose proof (service_removed_eq env name w) as Heq.
  destruct (services w !! name) as [service_info|] eqn:Hname.
  - destruct Hst as [Hservices Hservers]. split; [|split; [|split]].
    + intros name' Hne. rewrite Hservices. by apply lookup_delete_ne.
    + intros key. rewrite Hservers.
      destruct (decide (key = server service_info)) as [->|Hne].
      * right. rewrite lookup_delete_eq. eauto.
      * left. by apply lookup_delete_ne.
    + rewrite Heq. destruct (servers w !! server service_info) as [stored|].
      * exists [Delete (server_name_of (server service_info))].
        split; [by rewrite server_removed_sent|]. split; [done|].
        intros op Hop. apply list_elem_of_singleton in Hop as ->. eauto.
      * exists []. split; [by rewrite app_nil_r|]. split; [simpl; lia|].
        intros op Hop. by apply elem_of_nil in Hop.
    + rewrite Heq. destruct (servers w !! server service_info) as [stored|]; [|done].
      by destruct (server_removed_dns_only env (server service_info) stored
                     (set_servers (delete (server service_info))
                        (set_services (delete name) w)))
        as (_ & _ & -> & _).
  - destruct Hst as [Hservices Hservers]. rewrite Heq. simpl.
    split; [done|]. split; [by left|]. split; [|done].
    exists []. split; [by rewrite app_nil_r|]. split; [simpl; lia|].
    intros op Hop. by apply elem_of_nil in Hop.
Qed.

(** X6: of two stored instances on one server, the one removed second finds
    no snapshot: its removal returns without a call to the DNS server and
    changes nothing but its own entry. *)
Theorem second_removal_on_shared_server_is_silent (env : Env) (a b : string)
    (w : World) (ia ib : ServiceInfo) :
  a ≠ b →
  services w !! a = Some ia →
  services w !! b = Some ib →
  server ia = server ib →
  let w1 := world_of (service_removed env a w) in
  service_removed env b w1 = (Ok tt, set_services (delete b) w1).
Proof.
  intros Hab Ha Hb Hserver. cbv zeta.
  pose proof (service_removed_stores env a w) as Hst. cbv zeta in Hst.
  rewrite Ha in Hst. destruct Hst as [Hservices Hservers].
  rewrite service_removed_eq, Hservices, lookup_delete_ne, Hb by done.
  by rewrite Hservers, <- Hserver, lookup_delete_eq.
Qed.

Lemma second_removal_on_shared_server_is_silent_witness :
  let w1 := world_of (service_removed never_ready "web" two_on_one_host) in
  service_removed never_ready "ssh" w1 = (Ok tt, set_services (delete "ssh") w1).
Proof.
  apply (second_removal_on_shared_server_is_silent never_ready "web" "ssh"
           two_on_one_host dual_stack dual_stack).
  - discriminate.
  - by vm_compute.
  - by vm_compute.
  - reflexivity.
Defined.

(** ** Server names *)

Lemma server_name_of_no_dot server : has_dot (server_name_of server) = false.
Proof.
  unfold server_name_of. induction server as [|c s IH]; simpl; [done|].
  destruct (Ascii.eqb c ".") eqn:Hc; [done|].
  destruct (split_dot s) as [|part parts]; simpl; rewrite Hc; [done|].
  exact IH.
Qed.

(** X12: the owner name of the updates is the part of the server name before
    its first dot: it holds no dot, and the server name is the owner name,
    followed by nothing or by a dot and the rest.  A server name without a
    dot is its own owner name. *)
Theorem owner_name_is_first_label (server : string) :
  has_dot (server_name_of server) = false
  ∧ (∃ rest, server = server_name_of server +:+ rest
             ∧ (rest = EmptyString ∨ ∃ rest', rest = String "." rest'))
  ∧ (has_dot server = false → server_name_of server = server).
Proof.
  split; [apply server_name_of_no_dot|]. split; [apply server_name_of_prefix|].
  unfold server_name_of. induction server as [|c s IH]; simpl; [done|].
  destruct (Ascii.eqb c "."); [done|]. simpl. intros Hs.
  destruct (split_dot_cons s) as (part & parts & Hsplit). rewrite Hsplit in IH |- *.
  by rewrite IH.
Qed.

(** ** Events *)

Lemma iter_bump_zc_calls_eq k w :
  Nat.iter k bump_zc_calls w
  = mkWorld (services w) (servers w) (next_id w) (exit_event w) (error_event w)
            (stderr w) (zone w) (sent w) (tcp_calls w) (zc_calls w + k).
Proof.
  induction k as [|k IH]; simpl.
  - destruct w; simpl. f_equal. lia.
  - rewrite IH. unfold bump_zc_calls. simpl. f_equal. lia.
Qed.

Lemma on_service_instance_state_change_eq env service_type name state_change w :
  on_service_instance_state_change env service_type name state_change w
  = match instance_event_body env service_type name state_change w with
    | (Ok _, w') => (Ok tt, w')
    | (Raise _, w') => (Ok tt, after_fatal_error w')
    end.
Proof.
  unfold on_service_instance_state_change, instance_event_body, try_except.
  destruct state_change;
    match goal with |- context [match ?c w with _ => _ end] =>
      by destruct (c w) as [[[]|e] w'] end.
Qed.

(** The messages of an upsert and of a removal. *)
Lemma service_updated_sent_prefix env name service_info w :
  ∃ ops, sent (world_of (service_updated env name service_info w)) = sent w ++ ops
         ∧ ops `prefix_of`
             updates_for (server service_info) (server_info_of w service_info).
Proof.
  rewrite service_updated_eq. destruct (ServerInfo_ne _ _).
  - destruct (server_updated_sent env (server service_info)
                (server_info_of w service_info) (persisted name service_info w))
      as (ops & Hpre & Hsent & _).
    by exists ops.
  - exists []. split; [by rewrite app_nil_r | apply prefix_nil].
Qed.

Lemma service_removed_sent_cases env name w :
  sent (world_of (service_removed env name w)) = sent w
  ∨ ∃ service_info,
      services w !! name = Some service_info
      ∧ sent (world_of (service_removed env name w))
        = sent w ++ [Delete (server_name_of (server service_info))].
Proof.
  rewrite service_removed_eq.
  destruct (services w !! name) as [service_info|]; [|by left].
  destruct (servers w !! server service_info) as [stored|]; [|by left].
  right. exists service_info. split; [done|]. by rewrite server_removed_sent.
Qed.

Lemma updates_for_mirror_message server server_info op :
  op ∈ updates_for server server_info → mirror_message op.
Proof.
  unfold updates_for. intros Hop. apply elem_of_app in Hop as [Hop|Hop].
  - destruct (ipv4_address server_info); apply list_elem_of_In in Hop;
      simpl in Hop; [|done].
    destruct Hop as [<-|[]]. simpl. split; [apply server_name_of_no_dot | by left].
  - destruct (ipv6_address server_info); apply list_elem_of_In in Hop;
      simpl in Hop; [|done].
    destruct Hop as [<-|[]]. simpl. split; [apply server_name_of_no_dot | by right].
Qed.

Section Events.

Variable env : Env.

(** A property of worlds that the steps of the reconciler keep is kept by
    every callback, and by every run of callbacks. *)
Lemma on_event_invariant (P : World → Prop) :
  (∀ w, P w → P (bump_zc_calls w)) →
  (∀ w name service_info, P w → P (world_of (service_updated env name service_info w))) →
  (∀ w name, P w → P (world_of (service_removed env name w))) →
  (∀ w, P w → P (after_fatal_error w)) →
  ∀ service_type name state_change w,
    P w →
    P (world_of (on_service_instance_state_change env service_type name state_change w)).
Proof.
  intros Hbump Hup Hrem Hfatal service_type name state_change w HP.
  assert (∀ k, P (Nat.iter k bump_zc_calls w)) as Hiter.
  { induction k as [|k IH]; simpl; [done | by apply Hbump]. }
  assert (P (world_of (instance_event_body env service_type name state_change w)))
    as Hbody.
  { assert (P (world_of
                 (bind (retry (get_service_info env service_type name) MAX_RETRIES)
                       (λ service_info, service_updated env name service_info) w)))
      as Hupsert.
    { unfold bind.
      destruct (retry_cases env service_type name MAX_RETRIES w)
        as [(k & x & _ & _ & _ & ->) | [(k & e & _ & _ & _ & ->) | [_ ->]]].
      - apply Hup, Hiter.
      - apply Hiter.
      - apply Hiter. }
    destruct state_change; [exact Hupsert | by apply Hrem | exact Hupsert]. }
  rewrite on_service_instance_state_change_eq.
  destruct (instance_event_body env service_type name state_change w) as [[[]|e] w'].
  - exact Hbody.
  - by apply Hfatal.
Qed.

Lemma run_events_invariant (P : World → Prop) :
  (∀ w, P w → P (bump_zc_calls w)) →
  (∀ w name service_info, P w → P (world_of (service_updated env name service_info w))) →
  (∀ w name, P w → P (world_of (service_removed env name w))) →
  (∀ w, P w → P (after_fatal_error w)) →
  ∀ events w, P w → P (run_events env events w).
Proof.
  intros Hbump Hup Hrem Hfatal events.
  induction events as [|ev events IH]; intros w HP; [done|].
  simpl. apply IH. by apply on_event_invariant.
Qed.

Lemma service_updated_quiet name service_info w :
  quiet w (world_of (service_updated env name service_info w)).
Proof.
  rewrite service_updated_eq. destruct (ServerInfo_ne _ _); [|done].
  destruct (server_updated_dns_only env (server service_info)
              (server_info_of w service_info) (persisted name service_info w))
    as (_ & _ & _ & He & Hr & Hs & _).
  by repeat split.
Qed.

Lemma service_removed_quiet name w :
  quiet w (world_of (service_removed env name w)).
Proof.
  rewrite service_removed_eq.
  destruct (services w !! name) as [service_info|]; [|done].
  destruct (servers w !! server service_info) as [stored|]; [|done].
  destruct (server_removed_dns_only env (server service_info) stored
              (set_servers (delete (server service_info))
                 (set_services (delete name) w)))
    as (_ & _ & _ & He & Hr & Hs & _).
  by repeat split.
Qed.

End Events.

Lemma quiet_trans w1 w2 w3 : quiet w1 w2 → quiet w2 w3 → quiet w1 w3.
Proof. intros (?&?&?) (?&?&?). repeat split; congruence. Qed.

Lemma quiet_iter_bump_zc_calls k w : quiet w (Nat.iter k bump_zc_calls w).
Proof. by rewrite iter_bump_zc_calls_eq. Qed.

(** X7: a callback of an instance browser never raises, whatever the event,
    the cache and the DNS server do; it never touches [exit_event] and never
    clears [error_event]; and it leaves [error_event] set exactly when that
    was set before or the fatal error was reported during the call. *)
Theorem on_service_instance_state_change_never_raises (env : Env)
    (service_type name : string) (state_change : ServiceStateChange) (w : World) :
  let r := on_service_instance_state_change env service_type name state_change w in
  result_of r = Ok tt
  ∧ exit_event (world_of r) = exit_event w
  ∧ (error_event w = true → error_event (world_of r) = true)
  ∧ (error_event (world_of r) = true ↔
     error_event w = true
     ∨ stderr (world_of r) = stderr w ++ ["A fatal error occurred."]).
Proof.
  cbv zeta.
  assert (quiet w (world_of (instance_event_body env service_type name state_change w)))
    as (Hexit & Herror & Hstderr).
  { assert (quiet w (world_of
                       (bind (retry (get_service_info env service_type name) MAX_RETRIES)
                             (λ service_info, service_updated env name service_info) w)))
      as Hupsert.
    { unfold bind.
      destruct (retry_cases env service_type name MAX_RETRIES w)
        as [(k & x & _ & _ & _ & ->) | [(k & e & _ & _ & _ & ->) | [_ ->]]].
      - eapply quiet_trans; [apply quiet_iter_bump_zc_calls|].
        apply service_updated_quiet.
      - apply quiet_iter_bump_zc_calls.
      - apply quiet_iter_bump_zc_calls. }
    destruct state_change;
      [exact Hupsert | apply service_removed_quiet | exact Hupsert]. }
  rewrite on_service_instance_state_change_eq.
  destruct (instance_event_body env service_type name state_change w) as [[[]|e] w'];
    unfold world_of, result_of in *; simpl in *.
  - split; [done|]. split; [done|]. split; [congruence|].
    rewrite Herror, Hstderr. split; [by left|]. intros [H|H]; [done|].
    apply (f_equal length) in H. rewrite length_app in H. simpl in H. lia.
  - split; [done|]. split; [done|]. split; [done|].
    rewrite Hstderr. split; [by right | done].
Qed.

(** X8: when the cache has nothing after three lookups, an [Added] or
    [Updated] event ends in the fatal error: the flag is set, three lookups
    were made, and both dictionaries and the DNS server are as before. *)
Theorem exhausted_lookup_is_fatal (env : Env) (service_type name : string)
    (state_change : ServiceStateChange) (w : World) :
  state_change ≠ Removed →
  (∀ j, j < 3 → zc_reply env (zc_calls w + j) service_type name = Ok None) →
  let r := on_service_instance_state_change env service_type name state_change w in
  r = (Ok tt, after_fatal_error (Nat.iter 3 bump_zc_calls w))
  ∧ error_event (world_of r) = true
  ∧ services (world_of r) = services w ∧ servers (world_of r) = servers w
  ∧ sent (world_of r) = sent w ∧ tcp_calls (world_of r) = tcp_calls w
  ∧ zc_calls (world_of r) = zc_calls w + 3.
Proof.
  intros Hsc Hnone. cbv zeta.
  assert (on_service_instance_state_change env service_type name state_change w
          = (Ok tt, after_fatal_error (Nat.iter 3 bump_zc_calls w))) as ->.
  { rewrite on_service_instance_state_change_eq.
    assert (instance_event_body env service_type name state_change w
            = bind (retry (get_service_info env service_type name) MAX_RETRIES)
                   (λ service_info, service_updated env name service_info) w) as ->
      by by destruct state_change.
    unfold bind. by rewrite retry_exhausted. }
  unfold world_of. simpl snd. repeat split; try done. simpl. lia.
Qed.

Lemma exhausted_lookup_is_fatal_witness :
  let w := initial_world stale_zone in
  let r := on_service_instance_state_change never_ready "_http._tcp.local." "web"
             Added w in
  r = (Ok tt, after_fatal_error (Nat.iter 3 bump_zc_calls w))
  ∧ error_event (world_of r) = true
  ∧ services (world_of r) = services w ∧ servers (world_of r) = servers w
  ∧ sent (world_of r) = sent w ∧ tcp_calls (world_of r) = tcp_calls w
  ∧ zc_calls (world_of r) = zc_calls w + 3.
Proof.
  apply (exhausted_lookup_is_fatal never_ready "_http._tcp.local." "web" Added
           (initial_world stale_zone)).
  - discriminate.
  - reflexivity.
Defined.



Lemma ids_fresh_same_objects w w' :
  servers w' = servers w → next_id w' = next_id w → ids_fresh w → ids_fresh w'.
Proof.
  intros Hs Hn Hfresh s server_info. rewrite Hs, Hn. apply Hfresh.
Qed.

(** X10: in every world that callbacks lead to from the start of
    [mirror_mdns], the comparison of [service_updated] finds the snapshot
    changed, for every service: an upsert always stores the snapshot it built,
    and its branch without update is never taken. *)
Theorem upsert_after_events_always_updates (env : Env) (events : list Event)
    (z : list RRset) (name : string) (service_info : ServiceInfo) :
  let w := run_events env events (initial_world z) in
  ServerInfo_ne (servers w !! server service_info) (server_info_of w service_info)
  = true
  ∧ servers (world_of (service_updated env name service_info w))
    = <[server service_info := server_info_of w service_info]> (servers w).
Proof.
  cbv zeta.
  assert (ids_fresh (run_events env events (initial_world z))) as Hfresh.
  { apply (run_events_invariant env ids_fresh).
    - intros w. by apply ids_fresh_same_objects.
    - intros w n i. apply ids_fresh_service_updated.
    - intros w n. apply ids_fresh_service_removed.
    - intros w. by apply ids_fresh_same_objects.
    - apply ids_fresh_initial. }
  split; [by apply ids_fresh_differs|].
  destruct (service_updated_stores env name service_info
              (run_events env events (initial_world z))) as [_ ->].
  by rewrite ids_fresh_differs.
Qed.

(** X11: every message that callbacks send to the DNS server is a deletion
    or the replacement of an A or an AAAA record, at a name without a dot. *)
Theorem events_send_mirror_messages (env : Env) (events : list Event)
    (z : list RRset) (op : DnsOp) :
  op ∈ sent (run_events env events (initial_world z)) → mirror_message op.
Proof.
  revert op.
  apply (run_events_invariant env (λ w, ∀ op, op ∈ sent w → mirror_message op)).
  - intros w HP. exact HP.
  - intros w name service_info HP op.
    destruct (service_updated_sent_prefix env name service_info w)
      as (ops & -> & [rest Hpre]).
    intros Hop. apply elem_of_app in Hop as [Hop|Hop]; [by apply HP|].
    apply (updates_for_mirror_message (server service_info)
             (server_info_of w service_info)).
    rewrite Hpre. apply elem_of_app. by left.
  - intros w name HP op.
    destruct (service_removed_sent_cases env name w) as [-> | (i & _ & ->)];
      [apply HP|].
    intros Hop. apply elem_of_app in Hop as [Hop|Hop]; [by apply HP|].
    apply list_elem_of_singleton in Hop as ->. apply server_name_of_no_dot.
  - intros w HP. exact HP.
  - intros op Hop. by apply elem_of_nil in Hop.
Qed.

Lemma events_send_mirror_messages_witness :
  mirror_message (Replace "host1" (Some 120%Z) RdataType.AAAA 1%N).
Proof.
  apply (events_send_mirror_messages (answers dual_stack)
           [mkEvent "_http._tcp.local." "web" Added;
            mkEvent "_http._tcp.local." "web" Removed]
           [] (Replace "host1" (Some 120%Z) RdataType.AAAA 1%N)).
  vm_compute. apply list_elem_of_In. simpl. tauto.
Defined.

(** ** Upserts without an address *)

(** X15: an upsert of a service that has neither an IPv4 nor an IPv6 address
    returns without a call to the DNS server, even one out of reach; the
    instance is stored and its server has a snapshot. *)
Theorem service_updated_without_address (env : Env) (name : string)
    (service_info : ServiceInfo) (w : World) :
  _ipv4_addresses service_info = [] →
  _ipv6_addresses service_info = [] →
  let r := service_updated env name service_info w in
  result_of r = Ok tt
  ∧ sent (world_of r) = sent w
  ∧ tcp_calls (world_of r) = tcp_calls w
  ∧ zone (world_of r) = zone w
  ∧ services (world_of r) !! name = Some service_info
  ∧ is_Some (servers (world_of r) !! server service_info).
Proof.
  intros H4 H6. cbv zeta. rewrite service_updated_eq.
  destruct (ServerInfo_ne _ _) eqn:Hne.
  - unfold server_updated, bind. rewrite index0_split_dot.
    unfold server_info_of, persisted, world_of, result_of. rewrite H4, H6. simpl.
    repeat split; try done; rewrite lookup_insert_eq; eauto.
  - unfold world_of, result_of. simpl. repeat split; try done.
    + apply lookup_insert_eq.
    + unfold ServerInfo_ne in Hne.
      by destruct (servers w !! server service_info).
Qed.

Lemma service_updated_without_address_witness :
  let service_info := mkServiceInfo "printer.local." [] [] 120 in
  let w := initial_world [] in
  let r := service_updated unreachable "printer._ipp._tcp.local." service_info w in
  result_of r = Ok tt
  ∧ sent (world_of r) = sent w
  ∧ tcp_calls (world_of r) = tcp_calls w
  ∧ zone (world_of r) = zone w
  ∧ services (world_of r) !! "printer._ipp._tcp.local." = Some service_info
  ∧ is_Some (servers (world_of r) !! server service_info).
Proof.
  apply (service_updated_without_address unreachable "printer._ipp._tcp.local."
           (mkServiceInfo "printer.local." [] [] 120) (initial_world []));
    reflexivity.
Defined.

(** ** The zone sweep, every outcome *)

(** X13: whatever the DNS server does, a sweep touches neither dictionary
    nor flag, and the messages it sends are a prefix of the deletions for the
    A and AAAA rrsets of the transfer: each is the deletion of a name that
    holds such an rrset, none is a replacement, and none is sent when the
    transfer fails. *)
Theorem remove_all_a_records_sends_deletions_only (env : Env) (w : World) :
  let w' := world_of (remove_all_a_records env w) in
  dns_only w w'
  ∧ ∃ ops,
      sent w' = sent w ++ ops
      ∧ ops `prefix_of`
          ((λ rrset, Delete (rr_name rrset)) <$> filter is_address_rrset (zone w))
      ∧ (∀ op, op ∈ ops →
               ∃ rrset, rrset ∈ zone w ∧ is_address_rrset rrset
                        ∧ op = Delete (rr_name rrset))
      ∧ (link env (tcp_calls w) = false → ops = []).
Proof.
  cbv zeta. split; [apply remove_all_a_records_dns_only|].
  rewrite remove_all_a_records_eq. destruct (link env (tcp_calls w)).
  - destruct (for_each_update_sent env Delete
                (rr_name <$> filter is_address_rrset (zone w)) (bump_tcp_calls w))
      as (ops & Hpre & Hsent & _).
    rewrite <- list_fmap_compose in Hpre.
    exists ops. split; [exact Hsent|]. split; [exact Hpre|]. split; [|done].
    intros op Hop. destruct Hpre as [rest Hpre].
    assert (op ∈ (Delete ∘ rr_name) <$> filter is_address_rrset (zone w)) as Hin
      by (rewrite Hpre; apply elem_of_app; by left).
    apply list_elem_of_fmap in Hin as (rr & -> & Hrr).
    apply list_elem_of_filter in Hrr as [Haddr Hrr]. by exists rr.
  - exists []. simpl. split; [by rewrite app_nil_r|]. split; [apply prefix_nil|].
    split; [|done]. intros op Hop. by apply elem_of_nil in Hop.
Qed.

Lemma deleted_zone_filter names (z : list RRset) :
  foldl (λ z name, apply_update (Delete name) z) z names
  = filter (λ rr, rr_name rr ∉ names) z.
Proof.
  revert z. induction names as [|name names IH]; intros z; simpl.
  - induction z as [|rr z IHz]; [done|].
    rewrite filter_cons_True by apply not_elem_of_nil. by rewrite <- IHz.
  - rewrite IH, list_filter_filter. apply list_filter_iff. intros rr.
    unfold is_owner. rewrite negb_True, bool_decide_spec, not_elem_of_cons.
    tauto.
Qed.

(** X14: a sweep that returns leaves of the zone exactly the rrsets of the
    owners that held no A and no AAAA rrset, in their order: with the address
    records of an owner it deletes the records of every other type at that
    name. *)
Theorem remove_all_a_records_clears_address_owners (env : Env) (w : World) :
  result_of (remove_all_a_records env w) = Ok tt →
  zone (world_of (remove_all_a_records env w))
  = filter (λ rr, rr_name rr ∉ address_owners (zone w)) (zone w).
Proof.
  rewrite remove_all_a_records_eq. destruct (link env (tcp_calls w)); [|done].
  intros Hok. rewrite for_each_delete_zone by done. simpl.
  rewrite deleted_zone_filter. apply list_filter_iff. intros rr.
  unfold address_owners. by rewrite elem_of_remove_dups.
Qed.

Lemma remove_all_a_records_clears_address_owners_witness :
  zone (world_of (remove_all_a_records never_ready (initial_world stale_zone)))
  = filter (λ rr, rr_name rr ∉ address_owners (zone (initial_world stale_zone)))
           (zone (initial_world stale_zone)).
Proof.
  apply (remove_all_a_records_clears_address_owners never_ready
           (initial_world stale_zone)).
  reflexivity.
Defined.

(** Of [stale_zone] the sweep keeps the records at [@] and at [note]; the
    TXT record at [stale] goes with the address records. *)
Example sweep_of_stale_zone :
  zone (world_of (remove_all_a_records never_ready (initial_world stale_zone)))
  = [mkRRset "@" RdataType.SOA 3600 []; mkRRset "@" RdataType.NS 3600 [];
     mkRRset "note" RdataType.TXT 120 []].
Proof. by vm_compute. Qed.

(** ** Leaving [mirror_mdns] *)

(** X18: the closing sweep never raises, whatever the DNS server does; it
    touches neither dictionary nor flag, and without [exit_event] it does
    nothing at all. *)
Theorem shutdown_never_raises (env : Env) (w : World) :
  result_of (shutdown env w) = Ok tt
  ∧ dns_only w (world_of (shutdown env w))
  ∧ (exit_event w = false → world_of (shutdown env w) = w)
  ∧ (exit_event w = true →
     world_of (shutdown env w) = world_of (remove_all_a_records env w)).
Proof.
  pose proof (remove_all_a_records_dns_only env w) as Hdns.
  unfold shutdown, bind, gets, try_except, ret, world_of, result_of in *. simpl.
  destruct (exit_event w).
  - by destruct (remove_all_a_records env w) as [[[]|e] w1].
  - simpl. split; [done|]. split; [apply dns_only_refl | done].
Qed.

(** ** The listener of service types *)


(** ** The default of the DNS server option *)


(** ** What the zone holds after an upsert *)

Lemma apply_replace_same name t ty v (z : list RRset) :
  filter (λ rr, is_owner name rr && has_type ty rr) (apply_update (Replace name t ty v) z)
  = [mkRRset name ty (default 0%Z t) [v]].
Proof.
  simpl. rewrite filter_app, list_filter_filter.
  rewrite (filter_nil_intro _ z).
  - rewrite filter_cons_True; [done|]. unfold is_owner, has_type. simpl.
    rewrite bool_decide_eq_true_2 by done. by rewrite N.eqb_refl.
  - intros rr _ [H1 H2]. unfold has_type in H1. by destruct (_ && _).
Qed.

Lemma apply_replace_other name name' t ty ty' v (z : list RRset) :
  ty ≠ ty' →
  filter (λ rr, is_owner name' rr && has_type ty' rr)
         (apply_update (Replace name t ty v) z)
  = filter (λ rr, is_owner name' rr && has_type ty' rr) z.
Proof.
  intros Hty. simpl. rewrite filter_app, list_filter_filter.
  rewrite filter_cons_False, filter_nil, app_nil_r.
  - apply list_filter_iff. intros rr. unfold has_type. split; [by intros [H _]|].
    intros H. split; [done|].
    destruct (is_owner name' rr); [|done]. simpl in H.
    apply Is_true_true, N.eqb_eq in H. rewrite H.
    assert ((ty' =? ty)%N = false) as -> by (apply N.eqb_neq; congruence).
    by rewrite andb_false_r.
  - unfold has_type. simpl.
    assert ((ty =? ty')%N = false) as -> by by apply N.eqb_neq.
    rewrite andb_false_r. simpl. tauto.
Qed.

Lemma apply_replace_keeps_other_types name t ty ty' v (z : list RRset) :
  ty ≠ ty' →
  filter (has_type ty') (apply_update (Replace name t ty v) z) = filter (has_type ty') z.
Proof.
  intros Hty. simpl. rewrite filter_app, list_filter_filter.
  rewrite filter_cons_False, filter_nil, app_nil_r.
  - apply list_filter_iff. intros rr. unfold has_type. split; [by intros [H _]|].
    intros H. split; [done|].
    apply Is_true_true, N.eqb_eq in H. rewrite H.
    assert ((ty' =? ty)%N = false) as -> by (apply N.eqb_neq; congruence).
    by rewrite andb_false_r.
  - unfold has_type. simpl.
    assert ((ty =? ty')%N = false) as -> by by apply N.eqb_neq.
    simpl. tauto.
Qed.

(** The updates of [server_updated] that got through, and the zone they leave. *)
Lemma server_updated_zone env server server_info w :
  ∃ applied, applied `prefix_of` updates_for server server_info
    ∧ zone (world_of (server_updated env server server_info w))
      = foldl (λ z op, apply_update op z) (zone w) applied
    ∧ (result_of (server_updated env server server_info w) = Ok tt
       → applied = updates_for server server_info).
Proof.
  unfold server_updated, updates_for, bind. rewrite index0_split_dot.
  unfold dns_query_tcp_update, world_of, result_of.
  destruct (ipv4_address server_info) as [a4|], (ipv6_address server_info) as [a6|];
    simpl.
  - destruct (link env (tcp_calls w)); simpl.
    + destruct (link env (S (tcp_calls w))); simpl.
      * eexists [_; _]. by repeat split.
      * eexists [_]. split; [apply prefix_cons, prefix_nil | by split].
    + exists []. split; [apply prefix_nil | by split].
  - destruct (link env (tcp_calls w)); simpl.
    + eexists [_]. by repeat split.
    + exists []. split; [apply prefix_nil | by split].
  - destruct (link env (tcp_calls w)); simpl.
    + eexists [_]. by repeat split.
    + exists []. split; [apply prefix_nil | by split].
  - exists []. by repeat split.
Qed.



Lemma foldl_replace_keeps_other_types ty' (applied : list DnsOp) (z : list RRset) :
  (∀ op, op ∈ applied → ∃ n t ty v, op = Replace n t ty v ∧ ty ≠ ty') →
  filter (has_type ty') (foldl (λ z op, apply_update op z) z applied)
  = filter (has_type ty') z.
Proof.
  revert z. induction applied as [|op applied IH]; intros z Hops; [done|].
  simpl foldl. rewrite IH.
  - destruct (Hops op) as (n & t & ty & v & -> & Hty); [apply list_elem_of_here|].
    by apply apply_replace_keeps_other_types.
  - intros op' Hop'. apply Hops. by apply list_elem_of_further.
Qed.

(** X20: whatever the DNS server does, an upsert of a service without IPv6
    address leaves every AAAA rrset of the zone as it is, the one of its own
    host included; and likewise the A rrsets when there is no IPv4 address. *)
Theorem service_updated_keeps_absent_family (env : Env) (name : string)
    (service_info : ServiceInfo) (w : World) :
  let z' := zone (world_of (service_updated env name service_info w)) in
  (_ipv6_addresses service_info = [] →
   filter (has_type RdataType.AAAA) z' = filter (has_type RdataType.AAAA) (zone w))
  ∧ (_ipv4_addresses service_info = [] →
     filter (has_type RdataType.A) z' = filter (has_type RdataType.A) (zone w)).
Proof.
  cbv zeta. rewrite service_updated_eq.
  destruct (ServerInfo_ne _ _); [|done].
  destruct (server_updated_zone env (server service_info)
              (server_info_of w service_info) (persisted name service_info w))
    as (applied & [rest Hpre] & -> & _).
  assert (∀ op, op ∈ applied →
                op ∈ updates_for (server service_info) (server_info_of w service_info))
    as Hin by (intros op Hop; rewrite Hpre; apply elem_of_app; by left).
  unfold updates_for, server_info_of in Hin. simpl in Hin.
  split; intros Hnone; rewrite Hnone in Hin; simpl in Hin;
    apply foldl_replace_keeps_other_types; intros op Hop; apply Hin in Hop.
  - rewrite app_nil_r in Hop.
    destruct (first_or_none (_ipv4_addresses service_info));
      apply list_elem_of_In in Hop; simpl in Hop; [|done].
    destruct Hop as [<-|[]]. by eexists _, _, _, _.
  - destruct (first_or_none (_ipv6_addresses service_info));
      apply list_elem_of_In in Hop; simpl in Hop; [|done].
    destruct Hop as [<-|[]]. by eexists _, _, _, _.
Qed.

(** The address that a host lost stays in the zone: after an upsert with
    both addresses and one with the IPv4 address alone, the AAAA record of
    the host is still there. *)
Example dropped_ipv6_address_stays_published :
  let v4_only := mkServiceInfo "host1.local." [167772165%N] [] 120 in
  let w := run_ops never_ready [Upsert "web" dual_stack; Upsert "web" v4_only]
                   (initial_world []) in
  zone w = [mkRRset "host1" RdataType.AAAA 120 [1%N];
            mkRRset "host1" RdataType.A 120 [167772165%N]].
Proof. by vm_compute. Qed.

(** ** An instance that comes and goes *)


